(** * Tethys scraper ([src/main.py]): a shallow embedding and its properties

    The program walks a fixed two-level taxonomy of the Tethys database,
    fetches every listing page of every (tag, subtag) pair, reads the table of
    papers on it, follows every publication anchor to its detail page to find
    an outbound link, and writes one CSV file per subtag and one per tag.

    The network, the HTML parser and the log are modelled explicitly:
    - a [World] answers every request, as a function of the requests made so
      far and of the URL asked for;
    - a [State] records the requests made, the log records emitted and the
      files written, in chronological order;
    - Python exceptions are the [Raise] outcome of a computation, and the
      [while True] loop of the walker takes a fuel argument ([OutOfFuel] is
      the outcome of a loop that has not ended within it). *)

From Stdlib Require Import List String Ascii Arith Bool Lia.
From Stdlib Require Import Decimal DecimalString.
Import ListNotations.
Open Scope string_scope.
Open Scope list_scope.

(** ** Strings *)

(** Python's [str(n)] for a non-negative integer. *)
Definition str_of_nat (n : nat) : string :=
  NilZero.string_of_uint (Nat.to_uint n).

(** Python's ["%2d" % n]: decimal, right-justified in a field of width 2. *)
Definition fmt_2d (n : nat) : string :=
  if Nat.ltb n 10 then (" " ++ str_of_nat n)%string else str_of_nat n.

(** Python's [pat in s] on strings, also what [re.search] does for a pattern
    without metacharacters. *)
Fixpoint contains (pat s : string) : bool :=
  if String.prefix pat s then true
  else match s with
       | EmptyString => false
       | String _ s' => contains pat s'
       end.

(** Python's [s[-1]]: the last character, [None] standing for the
    [IndexError] of the empty string. *)
Fixpoint str_last (s : string) : option ascii :=
  match s with
  | EmptyString => None
  | String c EmptyString => Some c
  | String _ s' => str_last s'
  end.

(** Python's [s[:-1]]. *)
Fixpoint str_drop_last (s : string) : string :=
  match s with
  | EmptyString => EmptyString
  | String _ EmptyString => EmptyString
  | String c s' => String c (str_drop_last s')
  end.

(** Python's [xs.index(x)], [None] standing for its [ValueError]. *)
Fixpoint list_index (x : string) (xs : list string) : option nat :=
  match xs with
  | [] => None
  | y :: ys => if String.eqb y x then Some 0
               else option_map S (list_index x ys)
  end.

(** ** Tabular data (pandas)

    A [DataFrame] is a list of column labels and a list of rows; a cell is a
    string, or [None] for pandas' NaN.  A [Series] is a named column. *)

Definition cell := option string.

Record DataFrame := mkDataFrame {
  columns : list string;
  rows : list (list cell)
}.

Record Series := mkSeries {
  sname : string;
  svalues : list string
}.

(** [pd.DataFrame(columns=cols)]. *)
Definition pd_DataFrame (cols : list string) : DataFrame :=
  {| columns := cols; rows := [] |}.

(** The cell of row [r] under label [c], when the row is laid out along
    [cols]; NaN when the label is not there. *)
Fixpoint lookup_cell (c : string) (cols : list string) (r : list cell) : cell :=
  match cols, r with
  | c' :: cols', v :: r' => if String.eqb c c' then v else lookup_cell c cols' r'
  | _, _ => None
  end.

Definition reindex (old new : list string) (r : list cell) : list cell :=
  map (fun c => lookup_cell c old r) new.

Definition mem_string (c : string) (l : list string) : bool :=
  existsb (String.eqb c) l.

(** The column labels of [pd.concat([a, b], sort=False)]: those of [a], then
    those of [b] that [a] does not have. *)
Definition union_columns (a b : list string) : list string :=
  a ++ filter (fun c => negb (mem_string c a)) b.

(** [pd.concat([a, b], sort=False)]: the rows of [a], then the rows of [b],
    each laid out along the union of the labels. *)
Definition pd_concat (a b : DataFrame) : DataFrame :=
  let cols := union_columns (columns a) (columns b) in
  {| columns := cols;
     rows := map (reindex (columns a) cols) (rows a)
             ++ map (reindex (columns b) cols) (rows b) |}.

(** The rows of [pd.concat([df, series], axis=1)]: both carry the default
    index 0, 1, ..., the result has the union of the two indexes, and a side
    that has no entry at an index contributes NaN there. *)
Fixpoint zip_rows (width : nat) (rs : list (list cell)) (vs : list string)
  : list (list cell) :=
  match rs with
  | [] => map (fun v => repeat None width ++ [Some v]) vs
  | r :: rs' =>
      match vs with
      | [] => (r ++ [None]) :: zip_rows width rs' []
      | v :: vs' => (r ++ [Some v]) :: zip_rows width rs' vs'
      end
  end.

(** [pd.concat([df, urls], axis=1, sort=False)].  pandas drops the [None]
    entries of the list it is given, so an absent series leaves the frame
    as it is. *)
Definition pd_concat_axis1 (df : DataFrame) (urls : option Series) : DataFrame :=
  match urls with
  | None => df
  | Some sr =>
      {| columns := columns df ++ [sname sr];
         rows := zip_rows (List.length (columns df)) (rows df) (svalues sr) |}
  end.

(** ** Exceptions, requests, the world and the state *)

Inductive exn :=
| HTTPError (msg : string)
| URLError (msg : string)
| ValueError (msg : string)
| TypeError (msg : string)
| IndexError (msg : string)
| KeyError (msg : string).

Inductive Request :=
| ReadHtml (url : string)      (* [pd.read_html(url, match="Title")] *)
| UrlOpen (url : string).      (* [urllib.request.urlopen(url).read()] *)

(** An [<a>] element of a parsed document: its [href] attribute, if any, and
    its text.  A document is known by its anchors, in document order. *)
Record Anchor := mkAnchor {
  href : option string;
  text : string
}.

Definition Html := list Anchor.

(** What the network answers.  [read_html] answers with the non-empty list of
    the tables that match (its head and its tail) or with an exception;
    [urlopen] with a document or with an exception. *)
Record World := mkWorld {
  read_html : list Request -> string -> exn + (DataFrame * list DataFrame);
  urlopen : list Request -> string -> exn + Html;
  elapsed : list Request -> string  (* the formatted running time *)
}.

Inductive Level := DEBUG | INFO | WARNING | ERROR | CRITICAL.

(** A file written by [to_csv]: where, with which separator, and its header
    row and data rows. *)
Record CsvFile := mkCsvFile {
  path : string;
  sep : string;
  header : list string;
  body : list (list cell)
}.

Record State := mkState {
  history : list Request;
  log : list (Level * string);
  files : list CsvFile;
  logfile : option string
}.

Definition initial_state : State :=
  {| history := []; log := []; files := []; logfile := None |}.

(** ** Computations *)

Inductive result (A : Type) :=
| Ok (a : A)
| Raise (e : exn)
| OutOfFuel.
Arguments Ok {A} a.
Arguments Raise {A} e.
Arguments OutOfFuel {A}.

Definition M (A : Type) := State -> result A * State.

Definition ret {A} (a : A) : M A := fun s => (Ok a, s).

Definition bind {A B} (m : M A) (f : A -> M B) : M B :=
  fun s => match m s with
           | (Ok a, s') => f a s'
           | (Raise e, s') => (Raise e, s')
           | (OutOfFuel, s') => (OutOfFuel, s')
           end.

Definition raise {A} (e : exn) : M A := fun s => (Raise e, s).

Definition out_of_fuel {A} : M A := fun s => (OutOfFuel, s).

(** [try: m  except ...: h e]: the handler table [h] says which exceptions
    are caught. *)
Definition try_except {A} (m : M A) (h : exn -> option (M A)) : M A :=
  fun s => match m s with
           | (Raise e, s') => match h e with
                              | Some k => k s'
                              | None => (Raise e, s')
                              end
           | other => other
           end.

Declare Scope monad_scope.
Delimit Scope monad_scope with monad.
Notation "x <- c1 ;; c2" := (bind c1 (fun x => c2))
  (at level 61, c1 at next level, right associativity) : monad_scope.
Notation "c1 ;; c2" := (bind c1 (fun _ => c2))
  (at level 61, right associativity) : monad_scope.
Open Scope monad_scope.

Definition logger (lvl : Level) (msg : string) : M unit :=
  fun s => (Ok tt, {| history := history s;
                      log := log s ++ [(lvl, msg)];
                      files := files s;
                      logfile := logfile s |}).

Definition record_request (r : Request) : M unit :=
  fun s => (Ok tt, {| history := history s ++ [r];
                      log := log s;
                      files := files s;
                      logfile := logfile s |}).

(** [df.to_csv(p, sep=d, index=False)]: the file at [p] gets the header row
    [columns df] and the rows of [df], without an index column. *)
Definition to_csv (df : DataFrame) (p : string) (d : string) : M unit :=
  fun s => (Ok tt, {| history := history s;
                      log := log s;
                      files := files s ++ [{| path := p; sep := d;
                                              header := columns df;
                                              body := rows df |}];
                      logfile := logfile s |}).

(** [logging.FileHandler(p)] added to the logger. *)
Definition add_file_handler (p : string) : M unit :=
  fun s => (Ok tt, {| history := history s;
                      log := log s;
                      files := files s;
                      logfile := Some p |}).

Definition lift_exn {A} (r : exn + A) : M A :=
  match r with
  | inl e => raise e
  | inr a => ret a
  end.

(** ** The program *)

Definition DELIM : string := String (ascii_of_nat 9) EmptyString.

Definition TABLE_COLUMNS : list string :=
  ["title"; "authors"; "date"; "content_type"; "technology_type";
   "stressor"; "receptor"].

(** [TETHYS_URL.format(a, b, c)]. *)
Definition TETHYS_URL_format (a b c : string) : string :=
  ("https://tethys.pnnl.gov" ++ a ++ b ++ c)%string.

Definition TETHYS_TAG_SUBTAG : list (string * list string) :=
  [("stressor",
    ["chemicals"; "dynamic-device"; "emf"; "energy-removal";
     "lighting"; "noise"; "static-device"]);
   ("receptor",
    ["bats"; "benthic-invertebrates"; "birds"; "ground-nesting-birds";
     "passerines"; "raptors"; "seabirds"; "shorebirds"; "waterfowl";
     "ecosystem"; "fish"; "marine-mammals"; "sea-turtles";
     "terrestrial-mammals"; "farfield-environment"; "nearfield-habitat";
     "socio-economics"; "aesthetics"; "climate-change"; "fishing";
     "legal-and-policy"; "navigation"; "recreation";
     "stakeholder-engagement"]);
   ("technology-type",
    ["marine-energy-general"; "riverine"; "ocean-current";
     "otec"; "salinity-gradient"; "tidal"; "wave"; "wind-energy-general";
     "land-based-wind"; "offshore-wind"]);
   ("interactions",
    ["attraction"; "avoidance"; "changes-sediment-transport";
     "changes-water-quality"; "collisionevasion"; "entrapment"])].

(** [df.columns = names]: pandas raises [ValueError] when the number of
    names is not the number of columns. *)
Definition set_columns (df : DataFrame) (names : list string) : M DataFrame :=
  if Nat.eqb (List.length (columns df)) (List.length names)
  then ret {| columns := names; rows := rows df |}
  else raise (ValueError
         ("Length mismatch: Expected axis has "
          ++ str_of_nat (List.length (columns df))
          ++ " elements, new values have "
          ++ str_of_nat (List.length names) ++ " elements")%string).

(** [soup.findAll('a', attrs={'href': re.compile("/publications/")})]. *)
Definition findAll_publications (soup : Html) : list Anchor :=
  filter (fun a => match href a with
                   | Some h => contains "/publications/" h
                   | None => false
                   end) soup.

(** [soup.find('a', href=True, text=t)]: the first anchor that has an [href]
    and whose text is [t]. *)
Definition soup_find (soup : Html) (t : string) : option Anchor :=
  find (fun a => match href a with
                 | Some _ => String.eqb (text a) t
                 | None => false
                 end) soup.

(** [found['href']]: subscripting [None] is a [TypeError], asking a tag for
    an attribute it does not have a [KeyError]. *)
Definition subscript_href (found : option Anchor) : M string :=
  match found with
  | None => raise (TypeError "'NoneType' object is not subscriptable")
  | Some a => match href a with
              | Some h => ret h
              | None => raise (KeyError "href")
              end
  end.

(** [link.get('href')], as [format] prints it. *)
Definition get_href (link : Anchor) : string :=
  match href link with
  | Some h => h
  | None => "None"
  end.

Section Program.

Variable w : World.

Definition pd_read_html (url : string) : M (DataFrame * list DataFrame) :=
  fun s => (record_request (ReadHtml url);;
            lift_exn (read_html w (history s) url)) s.

Definition urllib_urlopen (url : string) : M Html :=
  fun s => (record_request (UrlOpen url);;
            lift_exn (urlopen w (history s) url)) s.

(** The body of the [for link in ...] loop of [scrape_page_urls]. *)
Definition resolve_link (link : Anchor) : M string :=
  let link_end := get_href link in
  let tethys_pub_link := TETHYS_URL_format link_end EmptyString EmptyString in
  logger DEBUG ("Looking for external source link at Tethys link "
                ++ tethys_pub_link)%string;;
  tethys_pub_soup <- urllib_urlopen tethys_pub_link;;
  try_except
    (pub_link <- subscript_href (soup_find tethys_pub_soup "External Link");;
     logger DEBUG ("Found external source link " ++ pub_link
                   ++ " at Tethys link " ++ tethys_pub_link)%string;;
     ret pub_link)
    (fun e => match e with
       | TypeError _ => Some
          (try_except
            (pub_link <- subscript_href (soup_find tethys_pub_soup "Access File");;
             logger DEBUG ("Found internal PDF source link " ++ pub_link
                           ++ " at Tethys link " ++ tethys_pub_link)%string;;
             ret pub_link)
            (fun e => match e with
               | TypeError _ => Some
                  (logger WARNING ("Did not find any source link at Tethys link "
                                   ++ tethys_pub_link)%string;;
                   logger WARNING
                     "In lieu of source link, the Tethys description link was provided.";;
                   ret tethys_pub_link)
               | _ => None
               end))
       | _ => None
       end).

Fixpoint for_links (links : list Anchor) (pub_link_list : list string)
  : M (list string) :=
  match links with
  | [] => ret pub_link_list
  | link :: links' =>
      pub_link <- resolve_link link;;
      for_links links' (pub_link_list ++ [pub_link])
  end.

Definition scrape_page_urls (tag subtag : string) (pagenum : nat)
  : M (option Series) :=
  let pub_link_list := [] in
  let pagenum_suffix :=
    if Nat.ltb 0 pagenum then ("?page=" ++ str_of_nat pagenum)%string
    else EmptyString in
  let page_url :=
    TETHYS_URL_format ("/" ++ tag) ("/" ++ subtag) pagenum_suffix in
  fetched <-
    try_except
      (html <- urllib_urlopen page_url;; ret (Some html))
      (fun e => match e with
         | HTTPError msg => Some
            (logger CRITICAL msg;;
             logger CRITICAL
               ("CRITICAL!!! A NoneType object was returned by scrape_page_urls, "
                ++ "which will break the scrape_page code at Line 131")%string;;
             ret None)
         | _ => None
         end);;
  match fetched with
  | None => ret None
  | Some soup =>
      pub_link_list <- for_links (findAll_publications soup) pub_link_list;;
      ret (Some {| sname := "paper_url"; svalues := pub_link_list |})
  end.

Definition scrape_page (tag subtag : string) (pagenum : nat)
  : M (option DataFrame) :=
  let pagenum_suffix :=
    if Nat.ltb 0 pagenum then ("?page=" ++ str_of_nat pagenum)%string
    else EmptyString in
  let tag_subtag_url :=
    TETHYS_URL_format ("/" ++ tag) ("/" ++ subtag) pagenum_suffix in
  fetched <-
    try_except
      (data <- pd_read_html tag_subtag_url;; ret (Some data))
      (fun e => match e with
         | HTTPError msg => Some
            (logger ERROR msg;;
             logger ERROR ("This error found at URL " ++ tag_subtag_url)%string;;
             ret None)
         | ValueError msg => Some
            (logger ERROR msg;;
             (if contains "No tables found" msg
              then logger ERROR ("URL " ++ tag_subtag_url
                                 ++ " does not have a table of papers")%string
              else ret tt);;
             ret None)
         | _ => None
         end);;
  match fetched with
  | None => ret None
  | Some (first_table, other_tables) =>
      (if Nat.ltb 1 (List.length (first_table :: other_tables))
       then logger WARNING ("WARNING: multiple tables at " ++ tag_subtag_url
                            ++ " that might contain paper data")%string
       else ret tt);;
      let page_df := first_table in
      renamed <-
        try_except
          (page_df <- set_columns page_df TABLE_COLUMNS;; ret (Some page_df))
          (fun e => match e with
             | ValueError msg => Some
                (logger ERROR msg;;
                 (if contains "Length mismatch" msg
                  then logger ERROR ("First match of table at URL "
                                     ++ tag_subtag_url
                                     ++ " does not contain paper data")%string
                  else ret tt);;
                 ret None)
             | _ => None
             end);;
      match renamed with
      | None => ret None
      | Some page_df =>
          logger DEBUG ("Retrieving URLs for TAG " ++ tag ++ " SUBTAG " ++ subtag
                        ++ " PAGENUM " ++ fmt_2d pagenum ++ "...")%string;;
          urls <- scrape_page_urls tag subtag pagenum;;
          logger DEBUG "Merging URLs with the page data...";;
          let page_df := pd_concat_axis1 page_df urls in
          ret (Some page_df)
      end
  end.

(** The [while True] loop of [scrape_all_papers], from page [pagenum] on. *)
Fixpoint pagination_loop (fuel : nat) (tag subtag : string) (pagenum : nat)
  (subtag_df : DataFrame) : M DataFrame :=
  match fuel with
  | O => out_of_fuel
  | S fuel' =>
      logger INFO ("Currently processing PAGE NUMBER: " ++ fmt_2d pagenum)%string;;
      page_df <- scrape_page tag subtag pagenum;;
      match page_df with
      | None =>
          logger INFO ("Page number " ++ fmt_2d pagenum
                       ++ " not found, continuing...")%string;;
          ret subtag_df
      | Some page_df =>
          logger DEBUG ("Merging PAGE NUMBER " ++ fmt_2d pagenum
                        ++ " data with SUBTAG " ++ subtag ++ " data")%string;;
          let subtag_df := pd_concat subtag_df page_df in
          logger INFO ("Finished processing PAGE NUMBER: " ++ fmt_2d pagenum)%string;;
          pagination_loop fuel' tag subtag (pagenum + 1) subtag_df
      end
  end.

(** The body of the [for subtag in ...] loop: the new value of [tag_df]. *)
Definition scrape_subtag (fuel : nat) (fpath tag : string) (tag_df : DataFrame)
  (subtag : string) : M DataFrame :=
  logger INFO ("Currently processing SUBTAG: " ++ subtag)%string;;
  let subtag_df := pd_DataFrame TABLE_COLUMNS in
  let pagenum := 0 in
  subtag_df <- pagination_loop fuel tag subtag pagenum subtag_df;;
  logger DEBUG ("Writing SUBTAG " ++ subtag ++ " data to file...")%string;;
  to_csv subtag_df (fpath ++ tag ++ "-" ++ subtag ++ ".csv")%string DELIM;;
  logger DEBUG ("Merging SUBTAG " ++ subtag ++ " data with TAG " ++ tag
                ++ " data")%string;;
  let tag_df := pd_concat tag_df subtag_df in
  logger INFO ("Finished processing SUBTAG: " ++ subtag)%string;;
  ret tag_df.

Fixpoint for_subtags (fuel : nat) (fpath tag : string) (subtags : list string)
  (tag_df : DataFrame) : M DataFrame :=
  match subtags with
  | [] => ret tag_df
  | subtag :: subtags' =>
      tag_df <- scrape_subtag fuel fpath tag tag_df subtag;;
      for_subtags fuel fpath tag subtags' tag_df
  end.

(** The body of the [for tag in ...] loop. *)
Definition scrape_tag (fuel : nat) (fpath : string)
  (entry : string * list string) : M unit :=
  let (tag, subtags) := entry in
  logger INFO ("Currently processing TAG: " ++ tag)%string;;
  let tag_df := pd_DataFrame TABLE_COLUMNS in
  tag_df <- for_subtags fuel fpath tag subtags tag_df;;
  logger DEBUG ("Writing TAG " ++ tag ++ " data to file...")%string;;
  to_csv tag_df (fpath ++ tag ++ ".csv")%string DELIM;;
  logger INFO ("Finished processing TAG: " ++ tag)%string.

Fixpoint for_tags (fuel : nat) (fpath : string)
  (taxonomy : list (string * list string)) : M unit :=
  match taxonomy with
  | [] => ret tt
  | entry :: taxonomy' =>
      scrape_tag fuel fpath entry;;
      for_tags fuel fpath taxonomy'
  end.

Definition scrape_all_papers (fuel : nat) (fpath : string) : M bool :=
  for_tags fuel fpath TETHYS_TAG_SUBTAG;;
  ret true.

(** [prompts.index(flag)]. *)
Definition prompts_index (prompts : list string) (flag : string) : M nat :=
  match list_index flag prompts with
  | Some i => ret i
  | None => raise (ValueError ("'" ++ flag ++ "' is not in list")%string)
  end.

(** [prompts[i]]. *)
Definition prompts_get (prompts : list string) (i : nat) : M string :=
  match nth_error prompts i with
  | Some v => ret v
  | None => raise (IndexError "list index out of range")
  end.

(** [s[-1]]. *)
Definition last_char (s : string) : M ascii :=
  match str_last s with
  | Some c => ret c
  | None => raise (IndexError "string index out of range")
  end.

Definition main (fuel : nat) (argv : list string) : M unit :=
  let prompts := argv in
  i <- prompts_index prompts "-logpath";;
  logdir <- prompts_get prompts (i + 1);;
  c <- last_char logdir;;
  let logdir := if Ascii.eqb c "/" then str_drop_last logdir else logdir in
  add_file_handler (logdir ++ "/tethys.log")%string;;
  logger INFO "----------INITIALIZING NEW RUN OF main.py----------";;
  i <- prompts_index prompts "-folderpath";;
  fpath <- prompts_get prompts (i + 1);;
  c <- last_char fpath;;
  let fpath := if negb (Ascii.eqb c "/") then (fpath ++ "/")%string else fpath in
  let fpath := "/Users/openamiguel/Desktop/tethys/" in
  scrape_all_papers fuel fpath;;
  fun s => logger INFO ("Full time elapsed: " ++ elapsed w (history s))%string s.

End Program.

(** ** Specifications *)

(** A relation between the state before and the state after, kept by every
    step of a computation. *)
Definition preserves {A} (R : State -> State -> Prop) (m : M A) : Prop :=
  forall s, R s (snd (m s)).

(** The page URL as the documentation of the site's scheme gives it: the
    base, the tag, the subtag, and a [?page=] suffix from the second page
    on. *)
Definition page_url_spec (tag subtag : string) (index : nat) : string :=
  ("https://tethys.pnnl.gov" ++ "/" ++ tag ++ "/" ++ subtag
   ++ match index with
      | O => EmptyString
      | S _ => "?page=" ++ str_of_nat index
      end)%string.

(** The state after has the requests of the state before, then [r], then
    further requests that all satisfy [P]. *)
Definition requests_after (P : Request -> Prop) (r : Request) (s s' : State)
  : Prop :=
  exists rest, history s' = history s ++ r :: rest /\ Forall P rest.

Definition more_requests (P : Request -> Prop) (s s' : State) : Prop :=
  exists rest, history s' = history s ++ rest /\ Forall P rest.

Definition is_UrlOpen (r : Request) : Prop :=
  match r with
  | UrlOpen _ => True
  | ReadHtml _ => False
  end.

(** The [href] of the first anchor of a document that has one and whose
    text is exactly [t]. *)
Fixpoint href_of_text (t : string) (soup : Html) : option string :=
  match soup with
  | [] => None
  | a :: soup' =>
      match href a with
      | Some h => if String.eqb (text a) t then Some h else href_of_text t soup'
      | None => href_of_text t soup'
      end
  end.

(** The outbound link of a detail page, in the order of precedence of the
    documentation: "External Link", else "Access File", else the detail
    page itself. *)
Definition resolved_link_spec (detail_url : string) (soup : Html) : string :=
  match href_of_text "External Link" soup with
  | Some h => h
  | None =>
      match href_of_text "Access File" soup with
      | Some h => h
      | None => detail_url
      end
  end.

(** The detail page of a publication anchor. *)
Definition detail_url (link : Anchor) : string :=
  TETHYS_URL_format (get_href link) EmptyString EmptyString.

(** What one turn of the loop over the anchors appends for the anchor
    [link]: its resolution, on the detail page the network served. *)
Definition resolves (w : World) (link : Anchor) (url : string) : Prop :=
  exists si page,
    urlopen w (history si) (detail_url link) = inr page
    /\ url = resolved_link_spec (detail_url link) page.

(** The log only grows; the files are left as they are. *)
Definition log_grows (s s' : State) : Prop :=
  exists l, log s' = log s ++ l.

Definition same_files (s s' : State) : Prop :=
  files s' = files s.

(** The warning of [scrape_page] about an ambiguous match. *)
Definition multiple_tables_warning (url : string) : Level * string :=
  (WARNING,
   ("WARNING: multiple tables at " ++ url
    ++ " that might contain paper data")%string).

(** What [scrape_page] does once the table is read and renamed. *)
Definition merge_links (w : World) (tag subtag : string) (pagenum : nat)
  (page_df : DataFrame) : M (option DataFrame) :=
  urls <- scrape_page_urls w tag subtag pagenum;;
  logger DEBUG "Merging URLs with the page data...";;
  ret (Some (pd_concat_axis1 page_df urls)).

(** The table of a page under the names of [TABLE_COLUMNS]. *)
Definition renamed (t : DataFrame) : DataFrame :=
  {| columns := TABLE_COLUMNS; rows := rows t |}.

(** ** Pagination, as a relation

    The log records that the walker emits around a page. *)
Definition page_started (pagenum : nat) (s : State) : State :=
  snd (logger INFO
         ("Currently processing PAGE NUMBER: " ++ fmt_2d pagenum)%string s).

Definition page_not_found (pagenum : nat) (s : State) : State :=
  snd (logger INFO
         ("Page number " ++ fmt_2d pagenum ++ " not found, continuing...")%string
         s).

Definition page_merged (subtag : string) (pagenum : nat) (s : State) : State :=
  snd (logger INFO
         ("Finished processing PAGE NUMBER: " ++ fmt_2d pagenum)%string
         (snd (logger DEBUG
                 ("Merging PAGE NUMBER " ++ fmt_2d pagenum
                  ++ " data with SUBTAG " ++ subtag ++ " data")%string s))).

(** [pagination_run w tag subtag k s pages s']: from state [s], the pages of
    index [k], [k + 1], ... are asked for in turn; [pages] are the results
    of those that are present, the page just after them is absent, and [s']
    is the state then. *)
Inductive pagination_run (w : World) (tag subtag : string)
  : nat -> State -> list DataFrame -> State -> Prop :=
| run_absent : forall pagenum s s1,
    scrape_page w tag subtag pagenum (page_started pagenum s) = (Ok None, s1) ->
    pagination_run w tag subtag pagenum s [] (page_not_found pagenum s1)
| run_present : forall pagenum s page_df s1 pages s',
    scrape_page w tag subtag pagenum (page_started pagenum s)
    = (Ok (Some page_df), s1) ->
    pagination_run w tag subtag (pagenum + 1)
      (page_merged subtag pagenum s1) pages s' ->
    pagination_run w tag subtag pagenum s (page_df :: pages) s'.

(** The URLs of the table requests among [requests], in order. *)
Definition table_requests (requests : list Request) : list string :=
  flat_map (fun r => match r with
                     | ReadHtml u => [u]
                     | UrlOpen _ => []
                     end) requests.

(** ** Output files, as the discovery order gives them *)

Definition csv_of (p : string) (df : DataFrame) : CsvFile :=
  {| path := p; sep := DELIM; header := columns df; body := rows df |}.

(** The frames of a list, stacked in order on the empty frame the walker
    starts from. *)
Definition stack (frames : list DataFrame) : DataFrame :=
  fold_left pd_concat frames (pd_DataFrame TABLE_COLUMNS).

(** The rows of a frame, in their order, each laid out along [cols]. *)
Definition laid_out (cols : list string) (frame : DataFrame)
  : list (list cell) :=
  map (reindex (columns frame) cols) (rows frame).

(** The file of a subtag, from the pages found for it: the rows of the
    first page in their order, then those of the second page, and so on,
    each row laid out along the header. *)
Definition subtag_file (fpath tag : string) (found : string * list DataFrame)
  : CsvFile :=
  {| path := (fpath ++ tag ++ "-" ++ fst found ++ ".csv")%string;
     sep := DELIM;
     header := columns (stack (snd found));
     body := flat_map (laid_out (columns (stack (snd found)))) (snd found) |}.

(** The file of a tag, from the pages found for each of its subtags: the
    rows of the first subtag, then those of the second, and so on, the rows
    of a subtag in the order of its pages. *)
Definition tag_file (fpath tag : string) (found : list (list DataFrame))
  : CsvFile :=
  {| path := (fpath ++ tag ++ ".csv")%string;
     sep := DELIM;
     header := columns (stack (map stack found));
     body := flat_map (flat_map (laid_out (columns (stack (map stack found)))))
               found |}.

(** The files of a tag: one file per subtag, then the file of the tag. *)
Definition tag_files (fpath : string) (entry : string * list string)
  (found : list (list DataFrame)) : list CsvFile :=
  map (subtag_file fpath (fst entry)) (combine (snd entry) found)
  ++ [tag_file fpath (fst entry) found].

(** [found] are the pages that pagination finds for each subtag of
    [subtags], in order. *)
Definition pages_found (w : World) (tag : string) (subtags : list string)
  (found : list (list DataFrame)) : Prop :=
  Forall2 (fun subtag pages =>
             exists s0 s1, pagination_run w tag subtag 0 s0 pages s1)
          subtags found.

(** The frame [a] holds the rows of the frames of [done], in order. *)
Definition holds_rows_of (a : DataFrame) (done : list DataFrame) : Prop :=
  rows a = flat_map (laid_out (columns a)) done
  /\ forall f, In f done -> incl (columns f) (columns a).

(** ** The schema *)

(** The header of a frame of the walker: the names of [TABLE_COLUMNS], alone
    or followed by the name of the link column. *)
Definition schema_header (cols : list string) : Prop :=
  cols = TABLE_COLUMNS \/ cols = TABLE_COLUMNS ++ ["paper_url"%string].

(** The files written between two states all have such a header. *)
Definition writes_schema_files (s s' : State) : Prop :=
  exists new,
    files s' = files s ++ new /\ Forall (fun f => schema_header (header f)) new.

(** ** Failures that the program absorbs *)

(** The table fetch fails with an [HTTPError] or a [ValueError] only. *)
Definition soft_tables (w : World) : Prop :=
  forall h u e, read_html w h u = inl e ->
    (exists msg, e = HTTPError msg) \/ (exists msg, e = ValueError msg).

(** The fetch of the listing document, which comes right after the table
    fetch, fails with an [HTTPError] only. *)
Definition soft_listing (w : World) : Prop :=
  forall h u0 u e, urlopen w (h ++ [ReadHtml u0]) u = inl e ->
    exists msg, e = HTTPError msg.

(** The fetch of a detail page, which comes right after another document
    fetch, does not fail. *)
Definition details_served (w : World) : Prop :=
  forall h u0 u, exists page, urlopen w (h ++ [UrlOpen u0]) u = inr page.

(** No subtag has a page of index [n] or more. *)
Definition pages_end_by (n : nat) (w : World) : Prop :=
  forall h tag subtag k, n <= k ->
    exists msg, read_html w h (page_url_spec tag subtag k) = inl (HTTPError msg).

Definition never_raises {A} (m : M A) : Prop :=
  forall s e, fst (m s) <> Raise e.

Definition completes {A} (m : M A) : Prop :=
  forall s, exists a, fst (m s) = Ok a.

(** ** Example sites *)

Definition site_columns : list string :=
  ["Title"; "Author"; "Date"; "Type of Content"; "Technology Type";
   "Stressor"; "Receptor"].

Definition site_row (title : string) : list cell :=
  [Some title; Some "Doe, J."; Some "2018"; Some "Report"; None;
   Some "Chemicals"; None].

Definition site_table : DataFrame :=
  {| columns := site_columns;
     rows := [site_row "Paper one"; site_row "Paper two"] |}.

Definition empty_table : DataFrame :=
  {| columns := site_columns; rows := [] |}.

(** A table that already has a column of links, eight columns in all. *)
Definition wide_table : DataFrame :=
  {| columns := TABLE_COLUMNS ++ ["paper_url"%string];
     rows := [site_row "Paper one" ++ [Some "http://example.org/one"%string]] |}.

Definition site_listing : Html :=
  [ {| href := Some "/publications/paper-one"%string; text := "Paper one" |};
    {| href := Some "/about"%string; text := "About" |};
    {| href := None; text := "anchor" |};
    {| href := Some "/publications/paper-two"%string; text := "Paper two" |} ].

Definition paper_one_page : Html :=
  [ {| href := Some "/files/one.pdf"%string; text := "Access File" |};
    {| href := None; text := "External Link" |};
    {| href := Some "http://example.org/one"%string; text := "External Link" |} ].

Definition paper_two_page : Html :=
  [ {| href := Some "/contact"%string; text := "Contact" |} ].

Definition not_found : exn := HTTPError "HTTP Error 404: Not Found".

Definition site_documents (u : string) : exn + Html :=
  if String.eqb u "https://tethys.pnnl.gov/stressor/chemicals" then inr site_listing
  else if String.eqb u "https://tethys.pnnl.gov/publications/paper-one"
  then inr paper_one_page
  else if String.eqb u "https://tethys.pnnl.gov/publications/paper-two"
  then inr paper_two_page
  else inr [].

(** A site with one page of two papers, under stressor/chemicals. *)
Definition small_site : World :=
  {| read_html := fun _ u =>
       if contains "?page=" u then inl not_found
       else if String.eqb u "https://tethys.pnnl.gov/stressor/chemicals"
       then inr (site_table, [])
       else inl not_found;
     urlopen := fun _ u => site_documents u;
     elapsed := fun _ => "0.000000"%string |}.

(** The same, with a second page that has a table without rows, and two
    matching tables on the first page. *)
Definition two_page_site : World :=
  {| read_html := fun _ u =>
       if String.eqb u "https://tethys.pnnl.gov/stressor/chemicals"
       then inr (site_table, [empty_table])
       else if String.eqb u "https://tethys.pnnl.gov/stressor/chemicals?page=1"
       then inr (empty_table, [])
       else inl not_found;
     urlopen := fun _ u => site_documents u;
     elapsed := fun _ => "0.000000"%string |}.

(** The same as [small_site], but the detail page of the second paper is
    gone. *)
Definition broken_detail_site : World :=
  {| read_html := read_html small_site;
     urlopen := fun _ u =>
       if String.eqb u "https://tethys.pnnl.gov/publications/paper-two"
       then inl not_found
       else site_documents u;
     elapsed := fun _ => "0.000000"%string |}.

(** The same as [small_site], but the listing document cannot be fetched
    once the table has been read. *)
Definition broken_listing_site : World :=
  {| read_html := read_html small_site;
     urlopen := fun _ u =>
       if String.eqb u "https://tethys.pnnl.gov/stressor/chemicals"
       then inl not_found
       else site_documents u;
     elapsed := fun _ => "0.000000"%string |}.

(** A site that cannot be reached: the connection fails before any HTTP
    status comes back. *)
Definition unreachable_site : World :=
  {| read_html := fun _ _ =>
       inl (URLError "<urlopen error [Errno -2] Name or service not known>");
     urlopen := fun _ _ =>
       inl (URLError "<urlopen error [Errno -2] Name or service not known>");
     elapsed := fun _ => "0.000000"%string |}.

(** A site whose table has the eight columns of the output files. *)
Definition wide_site : World :=
  {| read_html := fun _ u =>
       if String.eqb u "https://tethys.pnnl.gov/stressor/chemicals"
       then inr (wide_table, [])
       else inl not_found;
     urlopen := fun _ u => site_documents u;
     elapsed := fun _ => "0.000000"%string |}.

(** ** The command line *)

(** The output path that [main] passes to the walker. *)
Definition hardcoded_fpath : string := "/Users/openamiguel/Desktop/tethys/".

(** The files written between two states are all under the folder [dir]. *)
Definition writes_under (dir : string) (s s' : State) : Prop :=
  exists new,
    files s' = files s ++ new
    /\ Forall (fun f => String.prefix dir (path f) = true) new.

(** Lines 189 to 210 of [main]: the log folder and the logger. *)
Definition main_logger (argv : list string) : M unit :=
  i <- prompts_index argv "-logpath";;
  logdir <- prompts_get argv (i + 1);;
  c <- last_char logdir;;
  let logdir := if Ascii.eqb c "/" then str_drop_last logdir else logdir in
  add_file_handler (logdir ++ "/tethys.log")%string;;
  logger INFO "----------INITIALIZING NEW RUN OF main.py----------".

(** Lines 212 and 213 of [main]: the output folder of the command line. *)
Definition main_folderpath (argv : list string) : M string :=
  i <- prompts_index argv "-folderpath";;
  fpath <- prompts_get argv (i + 1);;
  c <- last_char fpath;;
  ret (if negb (Ascii.eqb c "/") then (fpath ++ "/")%string else fpath).

(** Lines 214 to 218 of [main]: the run. *)
Definition main_run (w : World) (fuel : nat) : M unit :=
  scrape_all_papers w fuel hardcoded_fpath;;
  fun s => logger INFO ("Full time elapsed: " ++ elapsed w (history s))%string s.

(** The links of the two papers of the listing, and the page with them. *)
Definition site_links : Series :=
  {| sname := "paper_url";
     svalues := ["http://example.org/one"%string;
                 "https://tethys.pnnl.gov/publications/paper-two"%string] |}.

Definition site_page : DataFrame :=
  pd_concat_axis1 (renamed site_table) (Some site_links).

Definition paper_one_anchor : Anchor :=
  {| href := Some "/publications/paper-one"%string; text := "Paper one" |}.

(** ** Further specifications *)

(** The request for the detail page of an anchor. *)
Definition detail_request (link : Anchor) : Request :=
  UrlOpen (detail_url link).

(** The levels of the log records that [resolve_link] adds: a warning pair
    when neither label is found, a debug record when one is. *)
Definition resolution_levels (soup : Html) : list Level :=
  match href_of_text "External Link" soup, href_of_text "Access File" soup with
  | None, None => [DEBUG; WARNING; WARNING]
  | _, _ => [DEBUG; DEBUG]
  end.

(** The exception [e] is an answer of the network to some request. *)
Definition network_exn (w : World) (e : exn) : Prop :=
  exists h u, read_html w h u = inl e \/ urlopen w h u = inl e.

Definition raises_only {A} (P : exn -> Prop) (m : M A) : Prop :=
  forall s e, fst (m s) = Raise e -> P e.

(** The answers to a table request after which the page is absent. *)
Definition absent_answer (answer : exn + (DataFrame * list DataFrame)) : Prop :=
  match answer with
  | inl (HTTPError _) => True
  | inl (ValueError _) => True
  | inl _ => False
  | inr (first_table, _) =>
      List.length (columns first_table) <> List.length TABLE_COLUMNS
  end.

(** The paths of the files of a run, in the order they are written. *)
Definition output_paths (fpath : string) (taxonomy : list (string * list string))
  : list string :=
  flat_map (fun entry =>
              map (fun subtag =>
                     (fpath ++ fst entry ++ "-" ++ subtag ++ ".csv")%string)
                  (snd entry)
              ++ [(fpath ++ fst entry ++ ".csv")%string])
           taxonomy.

(** The table requests of a run, from the pages found for each subtag: for
    every subtag in turn, the pages found and the absent page after them. *)
Definition subtag_table_requests (tag : string)
  (found : string * list DataFrame) : list string :=
  map (page_url_spec tag (fst found)) (seq 0 (S (List.length (snd found)))).

Definition tag_table_requests (entry : string * list string)
  (found : list (list DataFrame)) : list string :=
  flat_map (subtag_table_requests (fst entry)) (combine (snd entry) found).

(** The name of the log file for the value [v] of [-logpath]. *)
Definition ends_with_slash (v : string) : bool :=
  match str_last v with
  | Some c => Ascii.eqb c "/"
  | None => false
  end.

Definition logfile_of (v : string) : string :=
  if ends_with_slash v then (v ++ "tethys.log")%string
  else (v ++ "/tethys.log")%string.

Definition same_logfile (s s' : State) : Prop :=
  logfile s' = logfile s.

(** The state in which [main] starts the walker: the logger is set up and
    has one record. *)
Definition logger_ready (logdir : string) (s : State) : State :=
  {| history := history s;
     log := log s ++ [(INFO,
                       "----------INITIALIZING NEW RUN OF main.py----------"%string)];
     files := files s;
     logfile := Some (logfile_of logdir) |}.

(** The page has a column of links. *)
Definition has_links (page_df : DataFrame) : bool :=
  mem_string "paper_url" (columns page_df).

(** A site whose pages have no table. *)
Definition tableless_site : World :=
  {| read_html := fun _ _ => inl (ValueError "No tables found");
     urlopen := fun _ u => site_documents u;
     elapsed := fun _ => "0.000000"%string |}.

Definition example_argv : list string :=
  ["main.py"; "-logpath"; "/tmp/"; "-folderpath"; "out"]%string.

(* ================================================================= *)
(** * Properties *)

(** ** Reasoning about computations *)

Lemma bind_run {A B} (m : M A) (f : A -> M B) (s : State) :
  bind m f s = match m s with
               | (Ok a, s') => f a s'
               | (Raise e, s') => (Raise e, s')
               | (OutOfFuel, s') => (OutOfFuel, s')
               end.
Proof. reflexivity. Qed.

Lemma bind_Ok_run {A B} (m : M A) (f : A -> M B) s a s1 :
  m s = (Ok a, s1) -> bind m f s = f a s1.
Proof. intros H. unfold bind. rewrite H. reflexivity. Qed.

Lemma bind_Raise_run {A B} (m : M A) (f : A -> M B) s e s1 :
  m s = (Raise e, s1) -> bind m f s = (Raise e, s1).
Proof. intros H. unfold bind. rewrite H. reflexivity. Qed.

Lemma bind_logger {B} lvl msg (f : unit -> M B) s :
  bind (logger lvl msg) f s = f tt (snd (logger lvl msg s)).
Proof. reflexivity. Qed.

Section Preservation.

Variable R : State -> State -> Prop.
Hypothesis R_refl : forall s, R s s.
Hypothesis R_trans : forall s1 s2 s3, R s1 s2 -> R s2 s3 -> R s1 s3.

Lemma preserves_ret {A} (a : A) : preserves R (ret a).
Proof. intros s. apply R_refl. Qed.

Lemma preserves_raise {A} (e : exn) : preserves R (@raise A e).
Proof. intros s. apply R_refl. Qed.

Lemma preserves_out_of_fuel {A} : preserves R (@out_of_fuel A).
Proof. intros s. apply R_refl. Qed.

Lemma preserves_lift_exn {A} (r : exn + A) : preserves R (lift_exn r).
Proof. destruct r; intros s; apply R_refl. Qed.

Lemma preserves_bind {A B} (m : M A) (f : A -> M B) :
  preserves R m -> (forall a, preserves R (f a)) -> preserves R (bind m f).
Proof.
  intros Hm Hf s. unfold bind. specialize (Hm s).
  destruct (m s) as [[a | e |] s1]; simpl in *; auto.
  eapply R_trans; [exact Hm | apply Hf].
Qed.

Lemma preserves_try_except {A} (m : M A) (h : exn -> option (M A)) :
  preserves R m -> (forall e k, h e = Some k -> preserves R k) ->
  preserves R (try_except m h).
Proof.
  intros Hm Hh s. unfold try_except. specialize (Hm s).
  destruct (m s) as [[a | e |] s1]; simpl in *; auto.
  destruct (h e) as [k |] eqn:E; simpl; auto.
  eapply R_trans; [exact Hm | eapply Hh; eauto].
Qed.

Lemma preserves_if {A} (b : bool) (m1 m2 : M A) :
  preserves R m1 -> preserves R m2 -> preserves R (if b then m1 else m2).
Proof. destruct b; auto. Qed.

Hypothesis R_logger : forall lvl msg, preserves R (logger lvl msg).

Section Requests.

Variable w : World.
Hypothesis R_urlopen : forall u, preserves R (record_request (UrlOpen u)).

Lemma preserves_urllib_urlopen u : preserves R (urllib_urlopen w u).
Proof.
  intros s. unfold urllib_urlopen.
  apply (preserves_bind (record_request (UrlOpen u))
           (fun _ => lift_exn (urlopen w (history s) u))); auto.
  intros _. apply preserves_lift_exn.
Qed.

Lemma preserves_subscript_href o : preserves R (subscript_href o).
Proof.
  destruct o as [a |]; simpl; [| apply preserves_raise].
  destruct (href a); [apply preserves_ret | apply preserves_raise].
Qed.

Lemma preserves_resolve_link link : preserves R (resolve_link w link).
Proof.
  unfold resolve_link.
  apply preserves_bind; [apply R_logger | intros _].
  apply preserves_bind; [apply preserves_urllib_urlopen | intros soup].
  apply preserves_try_except.
  - apply preserves_bind; [apply preserves_subscript_href | intros u].
    apply preserves_bind; [apply R_logger | intros _; apply preserves_ret].
  - intros e k Hk. destruct e; try discriminate. injection Hk as <-.
    apply preserves_try_except.
    + apply preserves_bind; [apply preserves_subscript_href | intros u].
      apply preserves_bind; [apply R_logger | intros _; apply preserves_ret].
    + intros e k Hk. destruct e; try discriminate. injection Hk as <-.
      apply preserves_bind; [apply R_logger | intros _].
      apply preserves_bind; [apply R_logger | intros _; apply preserves_ret].
Qed.

Lemma preserves_for_links links : forall acc, preserves R (for_links w links acc).
Proof.
  induction links as [| link links IH]; intros acc; simpl.
  - apply preserves_ret.
  - apply preserves_bind; [apply preserves_resolve_link | intros u; apply IH].
Qed.

Lemma preserves_scrape_page_urls tag subtag pagenum :
  preserves R (scrape_page_urls w tag subtag pagenum).
Proof.
  unfold scrape_page_urls.
  apply preserves_bind.
  - apply preserves_try_except.
    + apply preserves_bind; [apply preserves_urllib_urlopen | intros h; apply preserves_ret].
    + intros e k Hk. destruct e; try discriminate. injection Hk as <-.
      apply preserves_bind; [apply R_logger | intros _].
      apply preserves_bind; [apply R_logger | intros _; apply preserves_ret].
  - intros [soup |]; [| apply preserves_ret].
    apply preserves_bind; [apply preserves_for_links | intros l; apply preserves_ret].
Qed.

Hypothesis R_read_html : forall u, preserves R (record_request (ReadHtml u)).

Lemma preserves_pd_read_html u : preserves R (pd_read_html w u).
Proof.
  intros s. unfold pd_read_html.
  apply (preserves_bind (record_request (ReadHtml u))
           (fun _ => lift_exn (read_html w (history s) u))); auto.
  intros _. apply preserves_lift_exn.
Qed.

Lemma preserves_set_columns df names : preserves R (set_columns df names).
Proof.
  unfold set_columns. apply preserves_if; [apply preserves_ret | apply preserves_raise].
Qed.

Lemma preserves_scrape_page tag subtag pagenum :
  preserves R (scrape_page w tag subtag pagenum).
Proof.
  unfold scrape_page.
  apply preserves_bind.
  - apply preserves_try_except.
    + apply preserves_bind; [apply preserves_pd_read_html | intros h; apply preserves_ret].
    + intros e k Hk. destruct e; try discriminate; injection Hk as <-.
      * apply preserves_bind; [apply R_logger | intros _].
        apply preserves_bind; [apply R_logger | intros _; apply preserves_ret].
      * apply preserves_bind; [apply R_logger | intros _].
        apply preserves_bind; [| intros _; apply preserves_ret].
        apply preserves_if; [apply R_logger | apply preserves_ret].
  - intros [[t ts] |]; [| apply preserves_ret].
    apply preserves_bind.
    { apply preserves_if; [apply R_logger | apply preserves_ret]. }
    intros _. apply preserves_bind.
    + apply preserves_try_except.
      * apply preserves_bind; [apply preserves_set_columns | intros h; apply preserves_ret].
      * intros e k Hk. destruct e; try discriminate; injection Hk as <-.
        apply preserves_bind; [apply R_logger | intros _].
        apply preserves_bind; [| intros _; apply preserves_ret].
        apply preserves_if; [apply R_logger | apply preserves_ret].
    + intros [df |]; [| apply preserves_ret].
      apply preserves_bind; [apply R_logger | intros _].
      apply preserves_bind; [apply preserves_scrape_page_urls | intros urls].
      apply preserves_bind; [apply R_logger | intros _; apply preserves_ret].
Qed.

Lemma preserves_pagination_loop fuel tag subtag : forall pagenum df,
  preserves R (pagination_loop w fuel tag subtag pagenum df).
Proof.
  induction fuel as [| fuel IH]; intros pagenum df; cbn [pagination_loop].
  - apply preserves_out_of_fuel.
  - apply preserves_bind; [apply R_logger | intros _].
    apply preserves_bind; [apply preserves_scrape_page | intros [page_df |]].
    + apply preserves_bind; [apply R_logger | intros _].
      apply preserves_bind; [apply R_logger | intros _]. apply IH.
    + apply preserves_bind; [apply R_logger | intros _]. apply preserves_ret.
Qed.

Variable fpath : string.
Hypothesis R_to_csv : forall df name,
  preserves R (to_csv df (fpath ++ name)%string DELIM).

Lemma preserves_scrape_subtag fuel tag tag_df subtag :
  preserves R (scrape_subtag w fuel fpath tag tag_df subtag).
Proof.
  unfold scrape_subtag.
  apply preserves_bind; [apply R_logger | intros _].
  apply preserves_bind; [apply preserves_pagination_loop | intros df].
  apply preserves_bind; [apply R_logger | intros _].
  apply preserves_bind; [apply R_to_csv | intros _].
  apply preserves_bind; [apply R_logger | intros _].
  apply preserves_bind; [apply R_logger | intros _]. apply preserves_ret.
Qed.

Lemma preserves_for_subtags fuel tag subtags : forall tag_df,
  preserves R (for_subtags w fuel fpath tag subtags tag_df).
Proof.
  induction subtags as [| subtag subtags IH]; intros tag_df; cbn [for_subtags].
  - apply preserves_ret.
  - apply preserves_bind; [apply preserves_scrape_subtag | intros df; apply IH].
Qed.

Lemma preserves_scrape_tag fuel entry :
  preserves R (scrape_tag w fuel fpath entry).
Proof.
  destruct entry as [tag subtags]. unfold scrape_tag.
  apply preserves_bind; [apply R_logger | intros _].
  apply preserves_bind; [apply preserves_for_subtags | intros df].
  apply preserves_bind; [apply R_logger | intros _].
  apply preserves_bind; [apply R_to_csv | intros _]. apply R_logger.
Qed.

Lemma preserves_scrape_all_papers fuel :
  preserves R (scrape_all_papers w fuel fpath).
Proof.
  unfold scrape_all_papers. apply preserves_bind; [| intros _; apply preserves_ret].
  induction TETHYS_TAG_SUBTAG as [| entry taxonomy IH]; cbn [for_tags].
  - apply preserves_ret.
  - apply preserves_bind; [apply preserves_scrape_tag | intros _; exact IH].
Qed.

End Requests.

End Preservation.

(** Two relations in sequence: the first step is in [R1], what follows in
    [R2], the whole in [R3]. *)
Lemma seq_bind {A B} (R1 R2 R3 : State -> State -> Prop)
  (m : M A) (f : A -> M B) :
  (forall s1 s2, R1 s1 s2 -> R3 s1 s2) ->
  (forall s1 s2 s3, R1 s1 s2 -> R2 s2 s3 -> R3 s1 s3) ->
  preserves R1 m -> (forall a, preserves R2 (f a)) -> preserves R3 (bind m f).
Proof.
  intros H13 H123 Hm Hf s. unfold bind. specialize (Hm s).
  destruct (m s) as [[a | e |] s1]; simpl in *; auto.
  eapply H123; [exact Hm | apply Hf].
Qed.

Lemma seq_try_except {A} (R1 R2 R3 : State -> State -> Prop)
  (m : M A) (h : exn -> option (M A)) :
  (forall s1 s2, R1 s1 s2 -> R3 s1 s2) ->
  (forall s1 s2 s3, R1 s1 s2 -> R2 s2 s3 -> R3 s1 s3) ->
  preserves R1 m -> (forall e k, h e = Some k -> preserves R2 k) ->
  preserves R3 (try_except m h).
Proof.
  intros H13 H123 Hm Hh s. unfold try_except. specialize (Hm s).
  destruct (m s) as [[a | e |] s1]; simpl in *; auto.
  destruct (h e) as [k |] eqn:E; simpl; auto.
  eapply H123; [exact Hm | eapply Hh; eauto].
Qed.

(** ** Requests *)

Lemma more_requests_refl P s : more_requests P s s.
Proof. exists []. rewrite app_nil_r. auto. Qed.

Lemma more_requests_trans P s1 s2 s3 :
  more_requests P s1 s2 -> more_requests P s2 s3 -> more_requests P s1 s3.
Proof.
  intros [l1 [H1 F1]] [l2 [H2 F2]]. exists (l1 ++ l2). split.
  - rewrite H2, H1, app_assoc. reflexivity.
  - apply Forall_app. auto.
Qed.

Lemma requests_after_more P r s1 s2 s3 :
  requests_after P r s1 s2 -> more_requests P s2 s3 -> requests_after P r s1 s3.
Proof.
  intros [l1 [H1 F1]] [l2 [H2 F2]]. exists (l1 ++ l2). split.
  - rewrite H2, H1, <- app_assoc. reflexivity.
  - apply Forall_app. auto.
Qed.

Lemma more_requests_logger P lvl msg : preserves (more_requests P) (logger lvl msg).
Proof. intros s. exists []. simpl. rewrite app_nil_r. auto. Qed.

Lemma more_requests_record (P : Request -> Prop) r :
  P r -> preserves (more_requests P) (record_request r).
Proof. intros H s. exists [r]. simpl. auto. Qed.

Lemma requests_after_record P r : preserves (requests_after P r) (record_request r).
Proof. intros s. exists []. simpl. auto. Qed.

Lemma more_requests_scrape_page_urls w tag subtag pagenum :
  preserves (more_requests is_UrlOpen) (scrape_page_urls w tag subtag pagenum).
Proof.
  apply preserves_scrape_page_urls.
  - apply more_requests_refl.
  - apply more_requests_trans.
  - apply more_requests_logger.
  - intros u. apply more_requests_record. exact I.
Qed.

Lemma requests_after_pd_read_html w P u :
  preserves (requests_after P (ReadHtml u)) (pd_read_html w u).
Proof.
  intros s. unfold pd_read_html.
  apply (seq_bind (requests_after P (ReadHtml u)) (more_requests P)
           (requests_after P (ReadHtml u))
           (record_request (ReadHtml u))
           (fun _ => lift_exn (read_html w (history s) u))); auto.
  - apply requests_after_more.
  - apply requests_after_record.
  - intros _. apply preserves_lift_exn. apply more_requests_refl.
Qed.

Lemma requests_after_urllib_urlopen w P u :
  preserves (requests_after P (UrlOpen u)) (urllib_urlopen w u).
Proof.
  intros s. unfold urllib_urlopen.
  apply (seq_bind (requests_after P (UrlOpen u)) (more_requests P)
           (requests_after P (UrlOpen u))
           (record_request (UrlOpen u))
           (fun _ => lift_exn (urlopen w (history s) u))); auto.
  - apply requests_after_more.
  - apply requests_after_record.
  - intros _. apply preserves_lift_exn. apply more_requests_refl.
Qed.

(** The first request of [scrape_page_urls] is for the listing page; the
    others are for detail pages. *)
Lemma scrape_page_urls_requests w tag subtag pagenum :
  preserves
    (requests_after is_UrlOpen
       (UrlOpen (TETHYS_URL_format ("/" ++ tag) ("/" ++ subtag)
                   (if Nat.ltb 0 pagenum
                    then ("?page=" ++ str_of_nat pagenum)%string
                    else EmptyString))))
    (scrape_page_urls w tag subtag pagenum).
Proof.
  unfold scrape_page_urls.
  eapply seq_bind with (R1 := requests_after _ _) (R2 := more_requests is_UrlOpen);
    [intros ? ? H; exact H | | |].
  - apply requests_after_more.
  - eapply seq_try_except
      with (R1 := requests_after _ _) (R2 := more_requests is_UrlOpen);
      [intros ? ? H; exact H | | |].
    + apply requests_after_more.
    + eapply seq_bind with (R1 := requests_after _ _) (R2 := more_requests is_UrlOpen);
    [intros ? ? H; exact H | | |].
      * apply requests_after_more.
      * apply requests_after_urllib_urlopen.
      * intros a. apply preserves_ret, more_requests_refl.
    + intros e k Hk. destruct e; try discriminate. injection Hk as <-.
      apply preserves_bind;
        [apply more_requests_trans | apply more_requests_logger | intros _].
      apply preserves_bind;
        [apply more_requests_trans | apply more_requests_logger | intros _].
      apply preserves_ret, more_requests_refl.
  - intros [soup |]; [| apply preserves_ret, more_requests_refl].
    apply preserves_bind; [apply more_requests_trans | | intros l].
    + apply preserves_for_links.
      * apply more_requests_refl.
      * apply more_requests_trans.
      * apply more_requests_logger.
      * intros u. apply more_requests_record. exact I.
    + apply preserves_ret, more_requests_refl.
Qed.

(** The first request of [scrape_page] is for the table of the listing
    page; the others are those of [scrape_page_urls]. *)
Lemma scrape_page_requests w tag subtag pagenum :
  preserves
    (requests_after is_UrlOpen
       (ReadHtml (TETHYS_URL_format ("/" ++ tag) ("/" ++ subtag)
                    (if Nat.ltb 0 pagenum
                     then ("?page=" ++ str_of_nat pagenum)%string
                     else EmptyString))))
    (scrape_page w tag subtag pagenum).
Proof.
  pose proof (more_requests_refl is_UrlOpen) as Hrefl.
  pose proof (more_requests_trans is_UrlOpen) as Htrans.
  pose proof (more_requests_logger is_UrlOpen) as Hlog.
  unfold scrape_page.
  eapply seq_bind with (R1 := requests_after _ _) (R2 := more_requests is_UrlOpen);
    [intros ? ? H; exact H | | |].
  - apply requests_after_more.
  - eapply seq_try_except
      with (R1 := requests_after _ _) (R2 := more_requests is_UrlOpen);
      [intros ? ? H; exact H | | |].
    + apply requests_after_more.
    + eapply seq_bind with (R1 := requests_after _ _) (R2 := more_requests is_UrlOpen);
    [intros ? ? H; exact H | | |].
      * apply requests_after_more.
      * apply requests_after_pd_read_html.
      * intros a. apply preserves_ret, Hrefl.
    + intros e k Hk. destruct e; try discriminate; injection Hk as <-.
      * repeat (apply preserves_bind; [exact Htrans | apply Hlog | intros _]).
        apply preserves_ret, Hrefl.
      * apply preserves_bind; [exact Htrans | apply Hlog | intros _].
        apply preserves_bind; [exact Htrans | | intros _; apply preserves_ret, Hrefl].
        apply preserves_if; [apply Hlog | apply preserves_ret, Hrefl].
  - intros [[t ts] |]; [| apply preserves_ret, Hrefl].
    apply preserves_bind; [exact Htrans | | intros _].
    { apply preserves_if; [apply Hlog | apply preserves_ret, Hrefl]. }
    apply preserves_bind; [exact Htrans | | ].
    + apply preserves_try_except; auto.
      * apply preserves_bind;
          [exact Htrans | apply preserves_set_columns; auto
          | intros a; apply preserves_ret, Hrefl].
      * intros e k Hk. destruct e; try discriminate; injection Hk as <-.
        apply preserves_bind; [exact Htrans | apply Hlog | intros _].
        apply preserves_bind; [exact Htrans | | intros _; apply preserves_ret, Hrefl].
        apply preserves_if; [apply Hlog | apply preserves_ret, Hrefl].
    + intros [df |]; [| apply preserves_ret, Hrefl].
      apply preserves_bind; [exact Htrans | apply Hlog | intros _].
      apply preserves_bind;
        [exact Htrans | apply more_requests_scrape_page_urls | intros urls].
      apply preserves_bind; [exact Htrans | apply Hlog | intros _].
      apply preserves_ret, Hrefl.
Qed.

(** ** The page URL *)

Lemma append_assoc (a b c : string) : ((a ++ b) ++ c = a ++ (b ++ c))%string.
Proof. induction a as [| x a IH]; simpl; [reflexivity | now rewrite IH]. Qed.

Lemma page_url_spec_eq tag subtag pagenum :
  TETHYS_URL_format ("/" ++ tag) ("/" ++ subtag)
    (if Nat.ltb 0 pagenum then ("?page=" ++ str_of_nat pagenum)%string
     else EmptyString)
  = page_url_spec tag subtag pagenum.
Proof.
  unfold TETHYS_URL_format, page_url_spec.
  destruct pagenum as [| n]; cbn [Nat.ltb Nat.leb];
    repeat (rewrite ?append_assoc; cbn [append]); reflexivity.
Qed.

Example page_url_first :
  page_url_spec "stressor" "chemicals" 0
  = "https://tethys.pnnl.gov/stressor/chemicals"%string.
Proof. reflexivity. Qed.

Example page_url_twelfth :
  page_url_spec "receptor" "bats" 11
  = "https://tethys.pnnl.gov/receptor/bats?page=11"%string.
Proof. reflexivity. Qed.

(** C5. For every tag, subtag and page index, the first request of the Page
    Extractor is for the table at the URL base + "/" + tag + "/" + subtag,
    with no suffix at index 0 and the suffix "?page=index" from index 1 on,
    and the first request of the Link Extractor is for the document at the
    very same URL. *)
Theorem page_url_shared (w : World) (tag subtag : string) (pagenum : nat)
  (s : State) :
  requests_after is_UrlOpen (ReadHtml (page_url_spec tag subtag pagenum))
    s (snd (scrape_page w tag subtag pagenum s))
  /\ requests_after is_UrlOpen (UrlOpen (page_url_spec tag subtag pagenum))
       s (snd (scrape_page_urls w tag subtag pagenum s)).
Proof.
  rewrite <- page_url_spec_eq. split.
  - apply scrape_page_requests.
  - apply scrape_page_urls_requests.
Qed.

(** ** The Link Extractor *)

Lemma subscript_href_soup_find soup t :
  subscript_href (soup_find soup t)
  = match href_of_text t soup with
    | Some h => ret h
    | None => raise (TypeError "'NoneType' object is not subscriptable")
    end.
Proof.
  unfold soup_find. induction soup as [| a soup IH]; simpl; [reflexivity |].
  destruct (href a) as [h |] eqn:E; [| exact IH].
  destruct (String.eqb (text a) t); [| exact IH].
  simpl. rewrite E. reflexivity.
Qed.

(** [href_of_text] finds the first fitting anchor, and fails only when there
    is none. *)
Lemma href_of_text_Some t soup h :
  href_of_text t soup = Some h ->
  exists before a after,
    soup = before ++ a :: after /\ href a = Some h /\ text a = t
    /\ forall b, In b before -> href b = None \/ text b <> t.
Proof.
  induction soup as [| a soup IH]; simpl; [discriminate |].
  destruct (href a) as [h' |] eqn:E.
  - destruct (String.eqb (text a) t) eqn:T.
    + intros [= <-]. exists [], a, soup. apply String.eqb_eq in T.
      repeat split; auto; intros b [].
    + intros H. destruct (IH H) as (before & a' & after & -> & Ha & Ht & Hb).
      exists (a :: before), a', after. repeat split; auto.
      intros b [<- | Hin]; auto. right. now apply String.eqb_neq.
  - intros H. destruct (IH H) as (before & a' & after & -> & Ha & Ht & Hb).
    exists (a :: before), a', after. repeat split; auto.
    intros b [<- | Hin]; auto.
Qed.

Lemma href_of_text_None t soup :
  href_of_text t soup = None ->
  forall a, In a soup -> href a = None \/ text a <> t.
Proof.
  induction soup as [| a soup IH]; simpl; [intros _ b [] |].
  destruct (href a) as [h' |] eqn:E.
  - destruct (String.eqb (text a) t) eqn:T; [discriminate |].
    intros H b [<- | Hin]; auto. right. now apply String.eqb_neq.
  - intros H b [<- | Hin]; auto.
Qed.

Lemma resolve_link_run w link s soup :
  urlopen w (history s) (detail_url link) = inr soup ->
  exists s',
    resolve_link w link s = (Ok (resolved_link_spec (detail_url link) soup), s')
    /\ history s' = history s ++ [UrlOpen (detail_url link)]
    /\ files s' = files s
    /\ (href_of_text "External Link" soup = None ->
        href_of_text "Access File" soup = None ->
        In (WARNING,
            ("Did not find any source link at Tethys link "
             ++ detail_url link)%string) (log s')).
Proof.
  intros H. unfold resolve_link. fold (detail_url link).
  rewrite bind_logger. unfold urllib_urlopen, record_request, try_except, bind.
  cbn [logger snd history log files logfile]. rewrite H.
  cbn [lift_exn ret]. rewrite !subscript_href_soup_find.
  unfold resolved_link_spec.
  destruct (href_of_text "External Link" soup) as [h |].
  - cbn. eexists. repeat split; try reflexivity. discriminate.
  - destruct (href_of_text "Access File" soup) as [h |].
    + cbn. eexists. repeat split; try reflexivity. discriminate.
    + cbn. eexists. repeat split; try reflexivity.
      intros _ _. apply in_or_app. left. apply in_or_app. right.
      left. reflexivity.
Qed.

(** C7. Detail-link resolution follows strict precedence: the [href] of the
    first anchor of the detail page whose text is exactly "External Link",
    else that of the first anchor whose text is exactly "Access File", else
    the URL of the detail page itself, and then with a warning in the log. *)
Theorem link_resolution_precedence (w : World) (link : Anchor) (s : State)
  (soup : Html) :
  urlopen w (history s) (detail_url link) = inr soup ->
  fst (resolve_link w link s)
  = Ok (match href_of_text "External Link" soup with
        | Some external => external
        | None =>
            match href_of_text "Access File" soup with
            | Some file => file
            | None => detail_url link
            end
        end)
  /\ (href_of_text "External Link" soup = None ->
      href_of_text "Access File" soup = None ->
      In (WARNING,
          ("Did not find any source link at Tethys link "
           ++ detail_url link)%string)
         (log (snd (resolve_link w link s)))).
Proof.
  intros H. destruct (resolve_link_run w link s soup H) as (s' & E & _ & _ & W).
  rewrite E. split; [reflexivity | exact W].
Qed.

Lemma resolve_link_raise w link s e :
  urlopen w (history s) (detail_url link) = inl e ->
  exists s', resolve_link w link s = (Raise e, s').
Proof.
  intros H. unfold resolve_link. fold (detail_url link).
  rewrite bind_logger. unfold urllib_urlopen, record_request, try_except, bind.
  cbn [logger snd history log files logfile]. rewrite H.
  cbn. eexists. reflexivity.
Qed.

Lemma for_links_run w links : forall acc s l s',
  for_links w links acc s = (Ok l, s') ->
  exists new, l = acc ++ new /\ Forall2 (resolves w) links new.
Proof.
  induction links as [| link links IH]; intros acc s l s'; simpl.
  - intros [= <- <-]. exists []. rewrite app_nil_r. auto.
  - destruct (urlopen w (history s) (detail_url link)) as [e | page] eqn:E.
    + destruct (resolve_link_raise w link s e E) as [s1 H1].
      rewrite (bind_Raise_run _ _ _ _ _ H1). discriminate.
    + destruct (resolve_link_run w link s page E) as (s1 & H1 & _).
      rewrite (bind_Ok_run _ _ _ _ _ H1). intros H.
      destruct (IH _ _ _ _ H) as (new & -> & F).
      exists (resolved_link_spec (detail_url link) page :: new). split.
      * rewrite <- app_assoc. reflexivity.
      * constructor; auto. exists s, page. auto.
Qed.

Lemma scrape_page_urls_Some w tag subtag pagenum s s' links :
  scrape_page_urls w tag subtag pagenum s = (Ok (Some links), s') ->
  exists soup,
    urlopen w (history s) (page_url_spec tag subtag pagenum) = inr soup
    /\ sname links = "paper_url"%string
    /\ Forall2 (resolves w) (findAll_publications soup) (svalues links).
Proof.
  unfold scrape_page_urls. rewrite page_url_spec_eq.
  unfold bind at 1. unfold try_except, bind at 1.
  unfold urllib_urlopen, record_request, bind at 1.
  cbn [lift_exn].
  destruct (urlopen w (history s) (page_url_spec tag subtag pagenum))
    as [e | soup] eqn:E.
  - destruct e; cbn; intros H; discriminate.
  - cbn. unfold bind.
    match goal with
    | |- context [for_links w ?l ?acc ?st] =>
        destruct (for_links w l acc st) as [[l' | e |] s1] eqn:F
    end; try discriminate.
    intros [= <- <-]. destruct (for_links_run _ _ _ _ _ _ F) as (new & -> & F2).
    exists soup. cbn. repeat split; auto.
Qed.

(** C8. The link sequence that the Link Extractor returns for a page has one
    resolved link per in-site publication anchor of the listing document, in
    the order of the anchors in the document; its length is the number of
    these anchors. *)
Theorem link_sequence_per_anchor (w : World) (tag subtag : string)
  (pagenum : nat) (s s' : State) (links : Series) :
  scrape_page_urls w tag subtag pagenum s = (Ok (Some links), s') ->
  exists soup,
    urlopen w (history s) (page_url_spec tag subtag pagenum) = inr soup
    /\ List.length (svalues links) = List.length (findAll_publications soup)
    /\ Forall2 (resolves w) (findAll_publications soup) (svalues links).
Proof.
  intros H. destruct (scrape_page_urls_Some _ _ _ _ _ _ _ H) as (soup & E & _ & F).
  exists soup. repeat split; auto.
  symmetry. eapply Forall2_length; eauto.
Qed.

(** ** The Page Extractor *)

Lemma log_grows_refl s : log_grows s s.
Proof. exists []. now rewrite app_nil_r. Qed.

Lemma log_grows_trans s1 s2 s3 :
  log_grows s1 s2 -> log_grows s2 s3 -> log_grows s1 s3.
Proof.
  intros [l1 H1] [l2 H2]. exists (l1 ++ l2). now rewrite H2, H1, app_assoc.
Qed.

Lemma log_grows_In s s' x : log_grows s s' -> In x (log s) -> In x (log s').
Proof. intros [l ->] H. apply in_or_app. now left. Qed.

Lemma log_grows_scrape_page_urls w tag subtag pagenum :
  preserves log_grows (scrape_page_urls w tag subtag pagenum).
Proof.
  apply preserves_scrape_page_urls.
  - apply log_grows_refl.
  - apply log_grows_trans.
  - intros lvl msg s. now exists [(lvl, msg)].
  - intros u s. exists []. cbn. now rewrite app_nil_r.
Qed.

Lemma same_files_scrape_page w tag subtag pagenum :
  preserves same_files (scrape_page w tag subtag pagenum).
Proof.
  apply preserves_scrape_page; unfold same_files, preserves; intros; cbn;
    congruence.
Qed.

Section PageCases.

Variables (w : World) (tag subtag : string) (pagenum : nat) (s : State).

Let url := page_url_spec tag subtag pagenum.

Ltac start_scrape_page E :=
  unfold scrape_page; rewrite page_url_spec_eq;
  unfold bind at 1; unfold try_except at 1; unfold bind at 1;
  unfold pd_read_html; unfold bind at 1; unfold record_request at 1;
  cbn [history log files logfile]; fold url; rewrite E; cbn [lift_exn ret raise].

Lemma scrape_page_HTTPError msg :
  read_html w (history s) url = inl (HTTPError msg) ->
  exists s',
    scrape_page w tag subtag pagenum s = (Ok None, s')
    /\ history s' = history s ++ [ReadHtml url]
    /\ In (ERROR, msg) (log s').
Proof.
  intros E. start_scrape_page E. cbn. eexists. repeat split.
  apply in_or_app. left. apply in_or_app. right. now left.
Qed.

Lemma scrape_page_ValueError msg :
  read_html w (history s) url = inl (ValueError msg) ->
  exists s',
    scrape_page w tag subtag pagenum s = (Ok None, s')
    /\ history s' = history s ++ [ReadHtml url]
    /\ In (ERROR, msg) (log s').
Proof.
  intros E. start_scrape_page E. unfold bind at 1. unfold bind at 1.
  cbn [logger]. unfold bind at 1.
  destruct (contains "No tables found" msg); cbn; eexists; repeat split.
  - apply in_or_app. left. apply in_or_app. right. now left.
  - apply in_or_app. right. now left.
Qed.

Lemma scrape_page_other_error e :
  read_html w (history s) url = inl e ->
  (forall msg, e <> HTTPError msg) -> (forall msg, e <> ValueError msg) ->
  exists s',
    scrape_page w tag subtag pagenum s = (Raise e, s')
    /\ history s' = history s ++ [ReadHtml url].
Proof.
  intros E H1 H2. start_scrape_page E.
  destruct e; cbn; try (eexists; split; reflexivity).
  - now destruct (H1 msg).
  - now destruct (H2 msg).
Qed.

Lemma scrape_page_mismatch t ts :
  read_html w (history s) url = inr (t, ts) ->
  List.length (columns t) <> List.length TABLE_COLUMNS ->
  exists s',
    scrape_page w tag subtag pagenum s = (Ok None, s')
    /\ history s' = history s ++ [ReadHtml url]
    /\ (exists msg,
          In (ERROR, msg) (log s') /\ contains "Length mismatch" msg = true)
    /\ (ts <> [] -> In (multiple_tables_warning url) (log s')).
Proof.
  intros E L. start_scrape_page E.
  unfold bind at 1. unfold bind at 1. unfold try_except at 1. unfold bind at 1.
  unfold set_columns. apply Nat.eqb_neq in L. rewrite L. cbn [raise].
  destruct ts as [| t' ts]; cbn [List.length Nat.ltb Nat.leb].
  - cbn. eexists. repeat split.
    + eexists. split.
      * apply in_or_app. left. apply in_or_app. right. now left.
      * reflexivity.
    + intros H. now destruct H.
  - cbn. eexists. repeat split.
    + eexists. split.
      * apply in_or_app. left. apply in_or_app. right. now left.
      * reflexivity.
    + intros _. apply in_or_app. left. apply in_or_app. left.
      apply in_or_app. right. now left.
Qed.

Lemma scrape_page_table t ts :
  read_html w (history s) url = inr (t, ts) ->
  List.length (columns t) = List.length TABLE_COLUMNS ->
  exists s1,
    scrape_page w tag subtag pagenum s
    = merge_links w tag subtag pagenum (renamed t) s1
    /\ history s1 = history s ++ [ReadHtml url]
    /\ files s1 = files s
    /\ log_grows s s1
    /\ (ts <> [] -> In (multiple_tables_warning url) (log s1)).
Proof.
  intros E L. start_scrape_page E.
  unfold bind at 1. unfold bind at 1. unfold try_except at 1. unfold bind at 1.
  unfold set_columns. rewrite L, Nat.eqb_refl. cbn [ret].
  destruct ts as [| t' ts]; cbn [List.length Nat.ltb Nat.leb logger ret].
  - rewrite bind_logger. eexists. split; [reflexivity |].
    cbn. repeat split; auto.
    + now eexists.
    + intros H. now destruct H.
  - rewrite bind_logger. eexists. split; [reflexivity |].
    cbn. repeat split; auto.
    + rewrite <- app_assoc. now eexists.
    + intros _. apply in_or_app. left. apply in_or_app. right. now left.
Qed.

Lemma merge_links_not_None page_df s1 :
  fst (merge_links w tag subtag pagenum page_df s1) <> Ok None.
Proof.
  unfold merge_links, bind.
  destruct (scrape_page_urls w tag subtag pagenum s1) as [[urls | e |] s2];
    cbn; discriminate.
Qed.

Lemma merge_links_Some page_df s1 df :
  fst (merge_links w tag subtag pagenum page_df s1) = Ok (Some df) ->
  exists urls, df = pd_concat_axis1 page_df urls.
Proof.
  unfold merge_links, bind.
  destruct (scrape_page_urls w tag subtag pagenum s1) as [[urls | e |] s2];
    cbn; try discriminate.
  intros [= <-]. now exists urls.
Qed.

Lemma merge_links_log_grows page_df :
  preserves log_grows (merge_links w tag subtag pagenum page_df).
Proof.
  unfold merge_links.
  apply preserves_bind;
    [apply log_grows_trans | apply log_grows_scrape_page_urls | intros urls].
  apply preserves_bind; [apply log_grows_trans | | intros _].
  - intros s1. now exists [(DEBUG, "Merging URLs with the page data..."%string)].
  - apply preserves_ret, log_grows_refl.
Qed.

End PageCases.


(** ** Pagination *)

Lemma pagination_loop_step w fuel tag subtag pagenum df s :
  pagination_loop w (S fuel) tag subtag pagenum df s
  = match scrape_page w tag subtag pagenum (page_started pagenum s) with
    | (Ok None, s1) => (Ok df, page_not_found pagenum s1)
    | (Ok (Some page_df), s1) =>
        pagination_loop w fuel tag subtag (pagenum + 1) (pd_concat df page_df)
          (page_merged subtag pagenum s1)
    | (Raise e, s1) => (Raise e, s1)
    | (OutOfFuel, s1) => (OutOfFuel, s1)
    end.
Proof.
  cbn [pagination_loop]. rewrite bind_logger. fold (page_started pagenum s).
  unfold bind at 1.
  destruct (scrape_page w tag subtag pagenum (page_started pagenum s))
    as [[[page_df |] | e |] s1]; reflexivity.
Qed.

Lemma pagination_loop_sound w tag subtag fuel : forall pagenum df s df' s',
  pagination_loop w fuel tag subtag pagenum df s = (Ok df', s') ->
  exists pages,
    pagination_run w tag subtag pagenum s pages s'
    /\ df' = fold_left pd_concat pages df
    /\ List.length pages < fuel.
Proof.
  induction fuel as [| fuel IH]; intros pagenum df s df' s'.
  - discriminate.
  - rewrite pagination_loop_step.
    destruct (scrape_page w tag subtag pagenum (page_started pagenum s))
      as [[[page_df |] | e |] s1] eqn:E; try discriminate.
    + intros H. destruct (IH _ _ _ _ _ H) as (pages & Hrun & -> & Hlen).
      exists (page_df :: pages). split; [| split].
      * eapply run_present; eauto.
      * reflexivity.
      * cbn. lia.
    + intros [= <- <-]. exists []. split; [| split].
      * now apply run_absent.
      * reflexivity.
      * cbn. lia.
Qed.

Lemma pagination_loop_complete w tag subtag pagenum s pages s' :
  pagination_run w tag subtag pagenum s pages s' ->
  forall fuel df, List.length pages < fuel ->
    pagination_loop w fuel tag subtag pagenum df s
    = (Ok (fold_left pd_concat pages df), s').
Proof.
  induction 1 as [pagenum s s1 E | pagenum s page_df s1 pages s' E Hrun IH];
    intros fuel df Hlen.
  - destruct fuel as [| fuel]; [cbn in Hlen; lia |].
    rewrite pagination_loop_step, E. reflexivity.
  - destruct fuel as [| fuel]; [cbn in Hlen; lia |].
    rewrite pagination_loop_step, E. apply IH. cbn in Hlen. lia.
Qed.

Lemma table_requests_app l1 l2 :
  table_requests (l1 ++ l2) = table_requests l1 ++ table_requests l2.
Proof. unfold table_requests. apply flat_map_app. Qed.

Lemma table_requests_UrlOpen l : Forall is_UrlOpen l -> table_requests l = [].
Proof.
  induction 1 as [| r l Hr _ IH]; [reflexivity |].
  destruct r; [destruct Hr | exact IH].
Qed.

(** The table requests of a run are those of the pages from the first to the
    absent one, each once, in increasing order. *)
Lemma pagination_run_requests w tag subtag pagenum s pages s' :
  pagination_run w tag subtag pagenum s pages s' ->
  exists requests,
    history s' = history s ++ requests
    /\ table_requests requests
       = map (page_url_spec tag subtag) (seq pagenum (S (List.length pages))).
Proof.
  induction 1 as [pagenum s s1 E | pagenum s page_df s1 pages s' E Hrun IH].
  - pose proof (scrape_page_requests w tag subtag pagenum (page_started pagenum s))
      as (rest & Hh & Hall).
    rewrite page_url_spec_eq, E in Hh. cbn in Hh.
    eexists. split; [exact Hh |].
    cbn. now rewrite table_requests_UrlOpen.
  - pose proof (scrape_page_requests w tag subtag pagenum (page_started pagenum s))
      as (rest & Hh & Hall).
    rewrite page_url_spec_eq, E in Hh. cbn in Hh.
    destruct IH as (requests & Hh' & Ht). cbn in Hh'.
    exists ((ReadHtml (page_url_spec tag subtag pagenum) :: rest) ++ requests).
    split.
    + rewrite Hh', Hh, <- app_assoc. reflexivity.
    + rewrite table_requests_app, Ht. cbn [table_requests flat_map app].
      fold (table_requests rest). rewrite table_requests_UrlOpen by auto.
      cbn [app List.length]. rewrite Nat.add_1_r. reflexivity.
Qed.

Lemma pagination_run_files w tag subtag pagenum s pages s' :
  pagination_run w tag subtag pagenum s pages s' -> files s' = files s.
Proof.
  induction 1 as [pagenum s s1 E | pagenum s page_df s1 pages s' E Hrun IH].
  - pose proof (same_files_scrape_page w tag subtag pagenum (page_started pagenum s))
      as H. rewrite E in H. exact H.
  - pose proof (same_files_scrape_page w tag subtag pagenum (page_started pagenum s))
      as H. rewrite E in H. rewrite IH. exact H.
Qed.

(** A table of the right width is a page, whatever its rows and its links:
    an empty page does not end the pagination. *)
Lemma scrape_page_well_formed w tag subtag pagenum s t ts :
  read_html w (history s) (page_url_spec tag subtag pagenum) = inr (t, ts) ->
  List.length (columns t) = List.length TABLE_COLUMNS ->
  fst (scrape_page w tag subtag pagenum s) <> Ok None.
Proof.
  intros E L.
  destruct (scrape_page_table w tag subtag pagenum s t ts E L) as (s1 & -> & _).
  apply merge_links_not_None.
Qed.

(** C4. The pagination of a (tag, subtag) pair asks for the pages of index
    0, 1, 2, ... in turn, each once, and ends at the first index whose page
    is absent: a loop that ends has met an absent page after the pages it
    merged, and nothing was asked for after it; whenever the page after
    [pages] is absent the loop ends there, however many pages come before
    it, given fuel for them; and a table of the right width with no rows
    is a page as any other, after which the loop goes on. *)
Theorem pagination_stops_at_first_absent (w : World) (tag subtag : string) :
  (forall fuel df s df' s',
      pagination_loop w fuel tag subtag 0 df s = (Ok df', s') ->
      exists pages requests,
        pagination_run w tag subtag 0 s pages s'
        /\ df' = fold_left pd_concat pages df
        /\ history s' = history s ++ requests
        /\ table_requests requests
           = map (page_url_spec tag subtag) (seq 0 (S (List.length pages))))
  /\ (forall s pages s' fuel df,
        pagination_run w tag subtag 0 s pages s' ->
        List.length pages < fuel ->
        pagination_loop w fuel tag subtag 0 df s
        = (Ok (fold_left pd_concat pages df), s'))
  /\ (forall fuel pagenum df s t ts,
        read_html w (history s) (page_url_spec tag subtag pagenum) = inr (t, ts) ->
        List.length (columns t) = List.length TABLE_COLUMNS ->
        rows t = [] ->
        fst (scrape_page w tag subtag pagenum (page_started pagenum s)) <> Ok None
        /\ forall page_df s1,
             scrape_page w tag subtag pagenum (page_started pagenum s)
             = (Ok (Some page_df), s1) ->
             pagination_loop w (S fuel) tag subtag pagenum df s
             = pagination_loop w fuel tag subtag (pagenum + 1)
                 (pd_concat df page_df) (page_merged subtag pagenum s1)).
Proof.
  split; [| split].
  - intros fuel df s df' s' H.
    destruct (pagination_loop_sound _ _ _ _ _ _ _ _ _ H) as (pages & Hrun & -> & _).
    destruct (pagination_run_requests _ _ _ _ _ _ _ Hrun) as (requests & Hh & Ht).
    exists pages, requests. auto.
  - intros s pages s' fuel df Hrun Hlen.
    now apply pagination_loop_complete.
  - intros fuel pagenum df s t ts E L _. split.
    + now apply (scrape_page_well_formed w tag subtag pagenum
                   (page_started pagenum s) t ts).
    + intros page_df s1 H. now rewrite pagination_loop_step, H.
Qed.

(** ** Stacking frames keeps the order of the rows *)

Lemma mem_string_In c l : mem_string c l = true <-> In c l.
Proof.
  unfold mem_string. rewrite existsb_exists. split.
  - intros (x & Hin & E). apply String.eqb_eq in E. now subst.
  - intros H. exists c. split; [exact H | apply String.eqb_refl].
Qed.

Lemma incl_union_l a b : incl a (union_columns a b).
Proof. intros x H. apply in_or_app. now left. Qed.

Lemma incl_union_r a b : incl b (union_columns a b).
Proof.
  intros x H. apply in_or_app.
  destruct (mem_string x a) eqn:E.
  - left. now apply mem_string_In.
  - right. apply filter_In. split; [exact H | now rewrite E].
Qed.

Lemma lookup_cell_notin x cols : forall r,
  ~ In x cols -> lookup_cell x cols r = None.
Proof.
  induction cols as [| c cols IH]; intros r H; [reflexivity |].
  destruct r as [| v r]; [reflexivity |]. cbn.
  destruct (String.eqb x c) eqn:E.
  - apply String.eqb_eq in E. subst. destruct H. now left.
  - apply IH. intros Hin. apply H. now right.
Qed.

Lemma lookup_cell_map x (g : string -> cell) cols :
  In x cols -> lookup_cell x cols (map g cols) = g x.
Proof.
  induction cols as [| c cols IH]; intros H; [destruct H |]. cbn.
  destruct (String.eqb x c) eqn:E.
  - apply String.eqb_eq in E. now subst.
  - apply IH. destruct H as [-> | H]; [| exact H].
    now rewrite String.eqb_refl in E.
Qed.

(** Laying a row out along wider labels, then along others, is laying it out
    along the others at once. *)
Lemma reindex_reindex c0 c1 c2 r :
  incl c0 c1 -> reindex c1 c2 (reindex c0 c1 r) = reindex c0 c2 r.
Proof.
  intros Hincl. unfold reindex. apply map_ext. intros x.
  destruct (mem_string x c1) eqn:E.
  - apply mem_string_In in E.
    now rewrite (lookup_cell_map x (fun c => lookup_cell c c0 r)).
  - assert (~ In x c1) as H1
        by (intros H; apply mem_string_In in H; congruence).
    rewrite lookup_cell_notin by exact H1.
    symmetry. apply lookup_cell_notin. intros H. apply H1. now apply Hincl.
Qed.

Lemma laid_out_map_reindex c1 c2 frame :
  incl (columns frame) c1 ->
  map (reindex c1 c2) (laid_out c1 frame) = laid_out c2 frame.
Proof.
  intros H. unfold laid_out. rewrite map_map. apply map_ext.
  intros r. now apply reindex_reindex.
Qed.

Lemma fold_concat_columns frames : forall a,
  incl (columns a) (columns (fold_left pd_concat frames a))
  /\ forall f, In f frames ->
       incl (columns f) (columns (fold_left pd_concat frames a)).
Proof.
  induction frames as [| f frames IH]; intros a; cbn [fold_left].
  - split; [apply incl_refl | intros f []].
  - destruct (IH (pd_concat a f)) as [Ha Hf]. split.
    + eapply incl_tran; [| exact Ha]. apply incl_union_l.
    + intros g [<- | Hg]; [| now apply Hf].
      eapply incl_tran; [| exact Ha]. apply incl_union_r.
Qed.

Lemma map_flat_map {A B C} (g : B -> C) (h : A -> list B) (l : list A) :
  map g (flat_map h l) = flat_map (fun x => map g (h x)) l.
Proof.
  induction l as [| x l IH]; cbn; [reflexivity |].
  now rewrite map_app, IH.
Qed.

Lemma flat_map_ext_in {A B} (g h : A -> list B) (l : list A) :
  (forall x, In x l -> g x = h x) -> flat_map g l = flat_map h l.
Proof.
  induction l as [| x l IH]; intros H; cbn; [reflexivity |].
  rewrite H by now left. rewrite IH; [reflexivity |].
  intros y Hy. apply H. now right.
Qed.

Lemma holds_rows_of_concat a done f :
  holds_rows_of a done -> holds_rows_of (pd_concat a f) (done ++ [f]).
Proof.
  intros [Hrows Hincl]. split.
  - cbn [pd_concat rows columns]. rewrite Hrows, map_flat_map, flat_map_app.
    cbn [flat_map]. rewrite app_nil_r. f_equal.
    apply flat_map_ext_in. intros g Hg. apply laid_out_map_reindex. auto.
  - cbn [pd_concat columns]. intros g Hg. apply in_app_or in Hg.
    destruct Hg as [Hg | [<- | []]].
    + eapply incl_tran; [apply Hincl, Hg | apply incl_union_l].
    + apply incl_union_r.
Qed.

Lemma holds_rows_of_fold frames : forall a done,
  holds_rows_of a done ->
  holds_rows_of (fold_left pd_concat frames a) (done ++ frames).
Proof.
  induction frames as [| f frames IH]; intros a done H; cbn [fold_left].
  - now rewrite app_nil_r.
  - replace (done ++ f :: frames) with ((done ++ [f]) ++ frames)
      by (now rewrite <- app_assoc).
    apply IH. now apply holds_rows_of_concat.
Qed.

Lemma holds_rows_of_stack frames : holds_rows_of (stack frames) frames.
Proof.
  apply (holds_rows_of_fold frames (pd_DataFrame TABLE_COLUMNS) []).
  split; [reflexivity | intros f []].
Qed.

(** The rows of a stack are the rows of its frames, frame after frame, each
    frame's rows in their order. *)
Lemma rows_stack frames :
  rows (stack frames) = flat_map (laid_out (columns (stack frames))) frames.
Proof. apply holds_rows_of_stack. Qed.

Lemma rows_stack_stack (found : list (list DataFrame)) :
  rows (stack (map stack found))
  = flat_map (flat_map (laid_out (columns (stack (map stack found))))) found.
Proof.
  rewrite rows_stack, flat_map_concat_map, map_map, <- flat_map_concat_map.
  apply flat_map_ext_in. intros pages _.
  unfold laid_out at 1. rewrite rows_stack, map_flat_map.
  apply flat_map_ext_in. intros page_df Hin.
  apply laid_out_map_reindex. now apply holds_rows_of_stack.
Qed.

Lemma csv_of_stack fpath tag subtag pages :
  csv_of (fpath ++ tag ++ "-" ++ subtag ++ ".csv")%string (stack pages)
  = subtag_file fpath tag (subtag, pages).
Proof. unfold csv_of, subtag_file. cbn [fst snd]. now rewrite <- rows_stack. Qed.

Lemma csv_of_stack_stack fpath tag found :
  csv_of (fpath ++ tag ++ ".csv")%string (stack (map stack found))
  = tag_file fpath tag found.
Proof. unfold csv_of, tag_file. now rewrite <- rows_stack_stack. Qed.

(** ** The walker *)

Lemma scrape_subtag_run w fuel fpath tag tag_df subtag s tag_df' s' :
  scrape_subtag w fuel fpath tag tag_df subtag s = (Ok tag_df', s') ->
  exists pages s0 s1,
    pagination_run w tag subtag 0 s0 pages s1
    /\ files s' = files s ++ [subtag_file fpath tag (subtag, pages)]
    /\ tag_df' = pd_concat tag_df (stack pages).
Proof.
  unfold scrape_subtag. rewrite bind_logger. unfold bind at 1.
  match goal with
  | |- context [pagination_loop w fuel tag subtag 0 ?df ?st] =>
      destruct (pagination_loop w fuel tag subtag 0 df st)
        as [[df' | e |] s1] eqn:E
  end; try discriminate.
  apply pagination_loop_sound in E. destruct E as (pages & Hrun & -> & _).
  cbn. intros [= <- <-]. cbn.
  exists pages. do 2 eexists. split; [exact Hrun |].
  split; [| reflexivity].
  rewrite (pagination_run_files _ _ _ _ _ _ _ Hrun).
  cbn. f_equal. f_equal. apply csv_of_stack.
Qed.

Lemma for_subtags_run w fuel fpath tag subtags : forall tag_df s tag_df' s',
  for_subtags w fuel fpath tag subtags tag_df s = (Ok tag_df', s') ->
  exists found,
    pages_found w tag subtags found
    /\ files s' = files s ++ map (subtag_file fpath tag) (combine subtags found)
    /\ tag_df' = fold_left pd_concat (map stack found) tag_df.
Proof.
  induction subtags as [| subtag subtags IH]; intros tag_df s tag_df' s'.
  - cbn. intros [= <- <-]. exists []. cbn. rewrite app_nil_r.
    repeat split. constructor.
  - cbn [for_subtags]. unfold bind at 1.
    destruct (scrape_subtag w fuel fpath tag tag_df subtag s)
      as [[df1 | e |] s1] eqn:E; try discriminate.
    apply scrape_subtag_run in E.
    destruct E as (pages & s0 & s2 & Hrun & Hfiles & ->).
    intros H. apply IH in H. destruct H as (found & Hfound & Hfiles' & ->).
    exists (pages :: found). split; [| split].
    + constructor; [now exists s0, s2 | exact Hfound].
    + rewrite Hfiles', Hfiles, <- app_assoc. reflexivity.
    + reflexivity.
Qed.

Lemma scrape_tag_run w fuel fpath entry s s' :
  scrape_tag w fuel fpath entry s = (Ok tt, s') ->
  exists found,
    pages_found w (fst entry) (snd entry) found
    /\ files s' = files s ++ tag_files fpath entry found.
Proof.
  destruct entry as [tag subtags]. unfold scrape_tag.
  rewrite bind_logger. unfold bind at 1.
  match goal with
  | |- context [for_subtags w fuel fpath tag subtags ?df ?st] =>
      destruct (for_subtags w fuel fpath tag subtags df st)
        as [[df' | e |] s1] eqn:E
  end; try discriminate.
  apply for_subtags_run in E. destruct E as (found & Hfound & Hfiles & ->).
  cbn. intros [= <-]. cbn.
  exists found. split; [exact Hfound |].
  rewrite Hfiles, <- app_assoc. unfold tag_files. cbn [fst snd].
  f_equal. f_equal. f_equal. apply csv_of_stack_stack.
Qed.

Lemma for_tags_run w fuel fpath taxonomy : forall s s',
  for_tags w fuel fpath taxonomy s = (Ok tt, s') ->
  exists found,
    Forall2 (fun entry => pages_found w (fst entry) (snd entry)) taxonomy found
    /\ files s' = files s ++ flat_map (fun ef => tag_files fpath (fst ef) (snd ef))
                                      (combine taxonomy found).
Proof.
  induction taxonomy as [| entry taxonomy IH]; intros s s'.
  - cbn. intros [= <-]. exists []. cbn. rewrite app_nil_r. split; constructor.
  - cbn [for_tags]. unfold bind at 1.
    destruct (scrape_tag w fuel fpath entry s) as [[[] | e |] s1] eqn:E;
      try discriminate.
    apply scrape_tag_run in E. destruct E as (found1 & Hfound1 & Hfiles1).
    intros H. apply IH in H. destruct H as (found & Hfound & Hfiles).
    exists (found1 :: found). split.
    + now constructor.
    + rewrite Hfiles, Hfiles1, <- app_assoc. reflexivity.
Qed.

(** C9. The rows of every output file are in discovery order.  When
    [scrape_all_papers] completes, the files it has written are, tag after
    tag in the order of the taxonomy, one file per subtag in the order of
    the subtags and then the file of the tag; the rows of a subtag file are
    the rows of the pages found for the subtag, page after page, each page's
    rows in their order ([subtag_file]); the rows of a tag file are those of
    its subtags, subtag after subtag, in the same nested order
    ([tag_file]). *)
Theorem rows_in_discovery_order (w : World) (fuel : nat) (fpath : string)
  (s s' : State) (b : bool) :
  scrape_all_papers w fuel fpath s = (Ok b, s') ->
  exists found : list (list (list DataFrame)),
    Forall2 (fun entry => pages_found w (fst entry) (snd entry))
      TETHYS_TAG_SUBTAG found
    /\ files s' = files s ++ flat_map (fun ef => tag_files fpath (fst ef) (snd ef))
                                      (combine TETHYS_TAG_SUBTAG found).
Proof.
  unfold scrape_all_papers, bind.
  destruct (for_tags w fuel fpath TETHYS_TAG_SUBTAG s) as [[[] | e |] s1] eqn:E;
    try discriminate.
  intros [= _ <-]. now apply (for_tags_run w fuel).
Qed.

(** ** The schema of pages and files *)

Lemma scrape_page_Some w tag subtag pagenum s df :
  fst (scrape_page w tag subtag pagenum s) = Ok (Some df) ->
  exists t ts urls,
    read_html w (history s) (page_url_spec tag subtag pagenum) = inr (t, ts)
    /\ List.length (columns t) = List.length TABLE_COLUMNS
    /\ df = pd_concat_axis1 (renamed t) urls
    /\ (urls = None \/ exists links, urls = Some links
                                    /\ sname links = "paper_url"%string).
Proof.
  destruct (read_html w (history s) (page_url_spec tag subtag pagenum))
    as [e | [t ts]] eqn:E.
  - destruct e;
      try (destruct (scrape_page_other_error w tag subtag pagenum s _ E)
             as (s' & -> & _); [discriminate | discriminate |]; discriminate).
    + destruct (scrape_page_HTTPError w tag subtag pagenum s _ E)
        as (s' & -> & _). discriminate.
    + destruct (scrape_page_ValueError w tag subtag pagenum s _ E)
        as (s' & -> & _). discriminate.
  - destruct (Nat.eq_dec (List.length (columns t)) (List.length TABLE_COLUMNS))
      as [L | L].
    + destruct (scrape_page_table w tag subtag pagenum s t ts E L)
        as (s1 & -> & _).
      unfold merge_links, bind.
      destruct (scrape_page_urls w tag subtag pagenum s1)
        as [[urls | e |] s2] eqn:U; cbn; try discriminate.
      intros [= <-]. exists t, ts, urls. repeat split; auto.
      destruct urls as [links |]; [right | now left].
      destruct (scrape_page_urls_Some _ _ _ _ _ _ _ U) as (soup & _ & N & _).
      now exists links.
    + destruct (scrape_page_mismatch w tag subtag pagenum s t ts E L)
        as (s' & -> & _). discriminate.
Qed.

Lemma scrape_page_schema w tag subtag pagenum s df :
  fst (scrape_page w tag subtag pagenum s) = Ok (Some df) ->
  schema_header (columns df).
Proof.
  intros H. apply scrape_page_Some in H.
  destruct H as (t & ts & urls & _ & _ & -> & [-> | (links & -> & N)]).
  - now left.
  - right. cbn. now rewrite N.
Qed.

Lemma schema_header_concat a b :
  schema_header (columns a) -> schema_header (columns b) ->
  schema_header (columns (pd_concat a b)).
Proof.
  cbn [pd_concat columns]. intros [-> | ->] [-> | ->];
    [left | right | right | right]; reflexivity.
Qed.

Lemma writes_schema_files_refl s : writes_schema_files s s.
Proof. exists []. now rewrite app_nil_r. Qed.

Lemma writes_schema_files_trans s1 s2 s3 :
  writes_schema_files s1 s2 -> writes_schema_files s2 s3 ->
  writes_schema_files s1 s3.
Proof.
  intros (n1 & H1 & F1) (n2 & H2 & F2). exists (n1 ++ n2). split.
  - now rewrite H2, H1, app_assoc.
  - now apply Forall_app.
Qed.

Lemma writes_schema_files_same s s' :
  files s' = files s -> writes_schema_files s s'.
Proof. intros H. exists []. now rewrite app_nil_r. Qed.

Lemma pagination_loop_schema w tag subtag fuel : forall pagenum df s r s',
  schema_header (columns df) ->
  pagination_loop w fuel tag subtag pagenum df s = (r, s') ->
  files s' = files s
  /\ forall df', r = Ok df' -> schema_header (columns df').
Proof.
  induction fuel as [| fuel IH]; intros pagenum df s r s' Hdf.
  - cbn. intros [= <- <-]. split; [reflexivity | discriminate].
  - rewrite pagination_loop_step.
    pose proof (same_files_scrape_page w tag subtag pagenum (page_started pagenum s))
      as Hf.
    pose proof (scrape_page_schema w tag subtag pagenum (page_started pagenum s))
      as Hs.
    destruct (scrape_page w tag subtag pagenum (page_started pagenum s))
      as [[[page_df |] | e |] s1]; cbn [fst snd] in Hf, Hs;
      unfold same_files in Hf.
    + intros H. apply IH in H.
      * destruct H as [H1 H2]. split; [rewrite H1; exact Hf | exact H2].
      * apply schema_header_concat; auto.
    + intros [= <- <-]. split; [exact Hf |]. now intros df' [= <-].
    + intros [= <- <-]. split; [exact Hf | discriminate].
    + intros [= <- <-]. split; [exact Hf | discriminate].
Qed.

Lemma scrape_subtag_schema w fuel fpath tag tag_df subtag s r s' :
  schema_header (columns tag_df) ->
  scrape_subtag w fuel fpath tag tag_df subtag s = (r, s') ->
  writes_schema_files s s'
  /\ forall df', r = Ok df' -> schema_header (columns df').
Proof.
  intros Htag. unfold scrape_subtag. rewrite bind_logger. unfold bind at 1.
  match goal with
  | |- context [pagination_loop w fuel tag subtag 0 ?df ?st] =>
      destruct (pagination_loop w fuel tag subtag 0 df st)
        as [[df1 | e |] s1] eqn:E;
      (apply pagination_loop_schema in E; [| now left]); destruct E as [Hf Hs]
  end; cbn in Hf |- *; intros [= <- <-].
  - specialize (Hs df1 eq_refl). split.
    + eexists. cbn. split; [rewrite Hf; reflexivity |].
      constructor; [exact Hs | constructor].
    + intros df' [= <-]. now apply schema_header_concat.
  - split; [now apply writes_schema_files_same | discriminate].
  - split; [now apply writes_schema_files_same | discriminate].
Qed.

Lemma for_subtags_schema w fuel fpath tag subtags : forall tag_df s r s',
  schema_header (columns tag_df) ->
  for_subtags w fuel fpath tag subtags tag_df s = (r, s') ->
  writes_schema_files s s'
  /\ forall df', r = Ok df' -> schema_header (columns df').
Proof.
  induction subtags as [| subtag subtags IH]; intros tag_df s r s' Htag.
  - cbn. intros [= <- <-].
    split; [apply writes_schema_files_refl | now intros df' [= <-]].
  - cbn [for_subtags]. unfold bind at 1.
    destruct (scrape_subtag w fuel fpath tag tag_df subtag s)
      as [[df1 | e |] s1] eqn:E;
      apply scrape_subtag_schema in E; auto; destruct E as [Hw Hs].
    + intros H. apply IH in H; [| now apply Hs]. destruct H as [Hw' Hs'].
      split; [eapply writes_schema_files_trans; eauto | exact Hs'].
    + intros [= <- <-]. split; [exact Hw | discriminate].
    + intros [= <- <-]. split; [exact Hw | discriminate].
Qed.

Lemma scrape_tag_schema w fuel fpath entry :
  preserves writes_schema_files (scrape_tag w fuel fpath entry).
Proof.
  intros s. destruct entry as [tag subtags]. unfold scrape_tag.
  rewrite bind_logger. unfold bind at 1.
  match goal with
  | |- context [for_subtags w fuel fpath tag subtags ?df ?st] =>
      destruct (for_subtags w fuel fpath tag subtags df st)
        as [[df1 | e |] s1] eqn:E;
      (apply for_subtags_schema in E; [| now left]); destruct E as [Hw Hs]
  end; cbn in Hw |- *; try exact Hw.
  eapply writes_schema_files_trans; [exact Hw |].
  eexists. split; [reflexivity |].
  constructor; [exact (Hs df1 eq_refl) | constructor].
Qed.

Lemma for_tags_schema w fuel fpath taxonomy :
  preserves writes_schema_files (for_tags w fuel fpath taxonomy).
Proof.
  induction taxonomy as [| entry taxonomy IH].
  - apply preserves_ret, writes_schema_files_refl.
  - cbn [for_tags]. apply preserves_bind.
    + apply writes_schema_files_trans.
    + apply scrape_tag_schema.
    + intros _. exact IH.
Qed.

Lemma scrape_all_papers_schema w fuel fpath :
  preserves writes_schema_files (scrape_all_papers w fuel fpath).
Proof.
  unfold scrape_all_papers. apply preserves_bind.
  - apply writes_schema_files_trans.
  - apply for_tags_schema.
  - intros _. apply preserves_ret, writes_schema_files_refl.
Qed.

Lemma pagination_loop_absent w fuel tag subtag pagenum df s s1 :
  scrape_page w tag subtag pagenum (page_started pagenum s) = (Ok None, s1) ->
  pagination_loop w (S fuel) tag subtag pagenum df s
  = (Ok df, page_not_found pagenum s1).
Proof. intros H. now rewrite pagination_loop_step, H. Qed.



(** ** Failures: absorbed, and not *)

Lemma scrape_page_urls_HTTPError w tag subtag pagenum s msg :
  urlopen w (history s) (page_url_spec tag subtag pagenum) = inl (HTTPError msg) ->
  exists s',
    scrape_page_urls w tag subtag pagenum s = (Ok None, s')
    /\ In (CRITICAL, msg) (log s').
Proof.
  intros E. unfold scrape_page_urls. rewrite page_url_spec_eq.
  unfold bind at 1. unfold try_except, bind at 1.
  unfold urllib_urlopen, record_request, bind at 1.
  cbn [history log files logfile]. rewrite E. cbn. eexists. split; [reflexivity |].
  apply in_or_app. left. apply in_or_app. right. now left.
Qed.

Lemma scrape_page_urls_other_error w tag subtag pagenum s e :
  urlopen w (history s) (page_url_spec tag subtag pagenum) = inl e ->
  (forall msg, e <> HTTPError msg) ->
  exists s', scrape_page_urls w tag subtag pagenum s = (Raise e, s').
Proof.
  intros E H. unfold scrape_page_urls. rewrite page_url_spec_eq.
  unfold bind at 1. unfold try_except, bind at 1.
  unfold urllib_urlopen, record_request, bind at 1.
  cbn [history log files logfile]. rewrite E.
  destruct e; cbn; try (eexists; reflexivity). now destruct (H msg).
Qed.

Lemma scrape_page_urls_listing w tag subtag pagenum s soup :
  urlopen w (history s) (page_url_spec tag subtag pagenum) = inr soup ->
  exists s1,
    history s1 = history s ++ [UrlOpen (page_url_spec tag subtag pagenum)]
    /\ scrape_page_urls w tag subtag pagenum s
       = (pub_link_list <- for_links w (findAll_publications soup) [];;
          ret (Some {| sname := "paper_url"; svalues := pub_link_list |})) s1.
Proof.
  intros E. unfold scrape_page_urls. rewrite page_url_spec_eq.
  unfold bind at 1. unfold try_except, bind at 1.
  unfold urllib_urlopen, record_request, bind at 1.
  cbn [history log files logfile]. rewrite E. cbn [lift_exn ret].
  eexists. split; [| reflexivity]. reflexivity.
Qed.

Section Absorbed.

Variable w : World.
Hypothesis tables : soft_tables w.
Hypothesis listing : soft_listing w.
Hypothesis details : details_served w.

Lemma for_links_served links : forall acc s h u0,
  history s = h ++ [UrlOpen u0] ->
  exists l s', for_links w links acc s = (Ok l, s').
Proof.
  induction links as [| link links IH]; intros acc s h u0 Hh; cbn [for_links].
  - now exists acc, s.
  - destruct (details h u0 (detail_url link)) as [page E]. rewrite <- Hh in E.
    destruct (resolve_link_run w link s page E) as (s1 & H1 & Hh1 & _).
    rewrite (bind_Ok_run _ _ _ _ _ H1). eapply IH. exact Hh1.
Qed.

Lemma scrape_page_urls_completes tag subtag pagenum s h u0 :
  history s = h ++ [ReadHtml u0] ->
  exists urls s', scrape_page_urls w tag subtag pagenum s = (Ok urls, s').
Proof.
  intros Hh.
  destruct (urlopen w (history s) (page_url_spec tag subtag pagenum))
    as [e | soup] eqn:E.
  - pose proof E as E'. rewrite Hh in E'. apply listing in E'.
    destruct E' as [msg ->].
    destruct (scrape_page_urls_HTTPError w tag subtag pagenum s msg E)
      as (s' & H & _). eauto.
  - destruct (scrape_page_urls_listing w tag subtag pagenum s soup E)
      as (s1 & Hh1 & ->).
    destruct (for_links_served (findAll_publications soup) [] s1 _ _ Hh1)
      as (l & s' & H).
    rewrite (bind_Ok_run _ _ _ _ _ H). do 2 eexists. reflexivity.
Qed.

Lemma scrape_page_completes tag subtag pagenum :
  completes (scrape_page w tag subtag pagenum).
Proof.
  intros s.
  destruct (read_html w (history s) (page_url_spec tag subtag pagenum))
    as [e | [t ts]] eqn:E.
  - destruct (tables _ _ _ E) as [[msg ->] | [msg ->]].
    + destruct (scrape_page_HTTPError w tag subtag pagenum s _ E) as (s' & -> & _).
      now exists None.
    + destruct (scrape_page_ValueError w tag subtag pagenum s _ E) as (s' & -> & _).
      now exists None.
  - destruct (Nat.eq_dec (List.length (columns t)) (List.length TABLE_COLUMNS))
      as [L | L].
    + destruct (scrape_page_table w tag subtag pagenum s t ts E L)
        as (s1 & -> & Hh & _).
      destruct (scrape_page_urls_completes tag subtag pagenum s1 _ _ Hh)
        as (urls & s2 & H).
      unfold merge_links. rewrite (bind_Ok_run _ _ _ _ _ H).
      eexists. reflexivity.
    + destruct (scrape_page_mismatch w tag subtag pagenum s t ts E L)
        as (s' & -> & _). now exists None.
Qed.

Lemma pagination_loop_never_raises fuel tag subtag : forall pagenum df,
  never_raises (pagination_loop w fuel tag subtag pagenum df).
Proof.
  induction fuel as [| fuel IH]; intros pagenum df s e.
  - discriminate.
  - rewrite pagination_loop_step.
    destruct (scrape_page_completes tag subtag pagenum (page_started pagenum s))
      as [page H].
    destruct (scrape_page w tag subtag pagenum (page_started pagenum s))
      as [[[page_df |] | e' |] s1]; try discriminate.
    apply IH.
Qed.

Lemma pagination_loop_completes n fuel tag subtag :
  pages_end_by n w ->
  forall pagenum df, n - pagenum < fuel ->
    completes (pagination_loop w fuel tag subtag pagenum df).
Proof.
  intros Hend. induction fuel as [| fuel IH]; intros pagenum df Hfuel s.
  - lia.
  - rewrite pagination_loop_step.
    destruct (le_lt_dec n pagenum) as [Hn | Hn].
    + destruct (Hend (history (page_started pagenum s)) tag subtag pagenum Hn)
        as [msg E].
      destruct (scrape_page_HTTPError w tag subtag pagenum _ _ E) as (s' & -> & _).
      now exists df.
    + destruct (scrape_page_completes tag subtag pagenum (page_started pagenum s))
        as [page H].
      destruct (scrape_page w tag subtag pagenum (page_started pagenum s))
        as [[[page_df |] | e' |] s1]; try discriminate.
      * apply IH. lia.
      * now exists df.
Qed.

End Absorbed.

Lemma completes_ret {A} (a : A) : completes (ret a).
Proof. intros s. now exists a. Qed.

Lemma completes_logger lvl msg : completes (logger lvl msg).
Proof. intros s. now exists tt. Qed.

Lemma completes_to_csv df p d : completes (to_csv df p d).
Proof. intros s. now exists tt. Qed.

Lemma completes_bind {A B} (m : M A) (f : A -> M B) :
  completes m -> (forall a, completes (f a)) -> completes (bind m f).
Proof.
  intros Hm Hf s. unfold bind. destruct (Hm s) as [a Ha].
  destruct (m s) as [[a' | e |] s1]; try discriminate. apply Hf.
Qed.

Lemma never_raises_bind {A B} (m : M A) (f : A -> M B) :
  never_raises m -> (forall a, never_raises (f a)) -> never_raises (bind m f).
Proof.
  intros Hm Hf s e. unfold bind. specialize (Hm s).
  destruct (m s) as [[a' | e' |] s1]; cbn in *.
  - apply Hf.
  - now destruct (Hm e').
  - discriminate.
Qed.

Lemma completes_never_raises {A} (m : M A) : completes m -> never_raises m.
Proof. intros H s e. destruct (H s) as [a ->]. discriminate. Qed.

(** The walker completes, or does not raise, when each pagination does. *)
Lemma walker_lifts (good : forall A, M A -> Prop) :
  (forall A B (m : M A) (f : A -> M B),
      good A m -> (forall a, good B (f a)) -> good B (bind m f)) ->
  (forall A (m : M A), completes m -> good A m) ->
  forall w fuel fpath,
    (forall tag subtag df, good _ (pagination_loop w fuel tag subtag 0 df)) ->
    good _ (scrape_all_papers w fuel fpath).
Proof.
  intros Hbind Hc w fuel fpath Hloop.
  assert (forall lvl msg, good _ (logger lvl msg)) as Hlog
      by (intros; apply Hc, completes_logger).
  assert (forall A (a : A), good _ (ret a)) as Hret
      by (intros; apply Hc, completes_ret).
  assert (forall tag tag_df subtag,
             good _ (scrape_subtag w fuel fpath tag tag_df subtag)) as Hsub.
  { intros tag tag_df subtag. unfold scrape_subtag.
    apply Hbind; [apply Hlog | intros _].
    apply Hbind; [apply Hloop | intros df].
    apply Hbind; [apply Hlog | intros _].
    apply Hbind; [apply Hc, completes_to_csv | intros _].
    apply Hbind; [apply Hlog | intros _].
    apply Hbind; [apply Hlog | intros _]. apply Hret. }
  assert (forall tag subtags tag_df,
             good _ (for_subtags w fuel fpath tag subtags tag_df)) as Hsubs.
  { intros tag subtags. induction subtags as [| subtag subtags IH];
      intros tag_df; cbn [for_subtags]; [apply Hret |].
    apply Hbind; [apply Hsub | intros df; apply IH]. }
  assert (forall entry, good _ (scrape_tag w fuel fpath entry)) as Htag.
  { intros [tag subtags]. unfold scrape_tag.
    apply Hbind; [apply Hlog | intros _].
    apply Hbind; [apply Hsubs | intros df].
    apply Hbind; [apply Hlog | intros _].
    apply Hbind; [apply Hc, completes_to_csv | intros _]. apply Hlog. }
  unfold scrape_all_papers. apply Hbind; [| intros _; apply Hret].
  induction TETHYS_TAG_SUBTAG as [| entry taxonomy IH]; cbn [for_tags];
    [apply Hret |].
  apply Hbind; [apply Htag | intros _; exact IH].
Qed.

Lemma scrape_all_papers_true w fuel fpath s b :
  fst (scrape_all_papers w fuel fpath s) = Ok b -> b = true.
Proof.
  unfold scrape_all_papers, bind.
  destruct (for_tags w fuel fpath TETHYS_TAG_SUBTAG s) as [[[] | e |] s1];
    cbn; congruence.
Qed.



(** The merge with an absent link sequence is not an absent page either: the
    page keeps its table, without the link column. *)
Fact absent_links_leave_the_table :
  fst (scrape_page broken_listing_site "stressor" "chemicals" 0 initial_state)
  = Ok (Some (renamed site_table)).
Proof. vm_compute. reflexivity. Qed.

(** ** The command line *)

Lemma list_index_None x l : list_index x l = None <-> ~ In x l.
Proof.
  induction l as [| y l IH]; cbn.
  - split; auto.
  - destruct (String.eqb y x) eqn:E.
    + apply String.eqb_eq in E. split; [discriminate | intros H; destruct H; auto].
    + apply String.eqb_neq in E.
      destruct (list_index x l); cbn.
      * split; [discriminate |]. intros H.
        assert (~ In x l) as H' by tauto. apply IH in H'. discriminate.
      * split; [| reflexivity]. intros _ [H | H]; [auto | now apply IH].
Qed.

Lemma list_index_here pre x rest :
  ~ In x pre -> list_index x (pre ++ x :: rest) = Some (List.length pre).
Proof.
  induction pre as [| y pre IH]; cbn; intros H.
  - now rewrite String.eqb_refl.
  - destruct (String.eqb y x) eqn:E.
    + apply String.eqb_eq in E. destruct H. now left.
    + rewrite IH; [reflexivity |]. intros Hin. apply H. now right.
Qed.

Lemma nth_error_after pre (x v : string) post :
  nth_error (pre ++ x :: v :: post) (List.length pre + 1) = Some v.
Proof. induction pre as [| y pre IH]; cbn; auto. Qed.

(** The lookup of a flag other than [x] and of its value does not see the
    value that follows [x]. *)
Lemma flag_lookup_blind flag x pre v1 v2 post :
  flag <> x ->
  In flag pre \/ (v1 <> flag /\ v2 <> flag) ->
  list_index flag (pre ++ x :: v1 :: post)
  = list_index flag (pre ++ x :: v2 :: post)
  /\ forall i, list_index flag (pre ++ x :: v1 :: post) = Some i ->
       nth_error (pre ++ x :: v1 :: post) (i + 1)
       = nth_error (pre ++ x :: v2 :: post) (i + 1).
Proof.
  intros Hx. induction pre as [| y pre IH]; intros H.
  - destruct H as [[] | [H1 H2]]. cbn -[Nat.add].
    apply String.eqb_neq in H1, H2. apply not_eq_sym in Hx.
    apply String.eqb_neq in Hx. rewrite Hx, H1, H2. split; [reflexivity |].
    intros i. destruct (list_index flag post) as [j |]; cbn; [| discriminate].
    intros [= <-]. reflexivity.
  - cbn -[Nat.add]. destruct (String.eqb y flag) eqn:E.
    + split; [reflexivity |]. intros i [= <-]. cbn.
      destruct pre; reflexivity.
    + apply String.eqb_neq in E.
      destruct IH as [IH1 IH2].
      { destruct H as [[H | H] | H]; [now destruct E | now left | now right]. }
      rewrite IH1. split; [reflexivity |].
      intros i. destruct (list_index flag (pre ++ x :: v2 :: post)) as [j |] eqn:F;
        cbn; [| discriminate].
      intros [= <-]. cbn. apply IH2. now rewrite IH1.
Qed.

Lemma str_last_nonempty v : v <> EmptyString -> exists c, str_last v = Some c.
Proof.
  induction v as [| a v IH]; intros H; [now destruct H |].
  destruct v as [| b v]; [now exists a |].
  destruct IH as [c Hc]; [discriminate |]. exists c. exact Hc.
Qed.

Lemma main_stages w fuel argv s :
  main w fuel argv s
  = (main_logger argv;; _ <- main_folderpath argv;; main_run w fuel) s.
Proof.
  unfold main, main_logger, main_folderpath, main_run, bind,
    prompts_index, prompts_get, last_char, hardcoded_fpath.
  destruct (list_index "-logpath" argv) as [i |]; [| reflexivity].
  cbn [ret raise].
  destruct (nth_error argv (i + 1)) as [logdir |]; [| reflexivity].
  cbn [ret raise].
  destruct (str_last logdir) as [c |]; [| reflexivity].
  cbn [ret raise add_file_handler logger].
  destruct (list_index "-folderpath" argv) as [j |]; [| reflexivity].
  cbn [ret raise].
  destruct (nth_error argv (j + 1)) as [fpath |]; [| reflexivity].
  cbn [ret raise].
  destruct (str_last fpath) as [c' |]; reflexivity.
Qed.

(** The logger stage makes no request and writes no output file. *)
Lemma main_logger_quiet argv s :
  history (snd (main_logger argv s)) = history s
  /\ files (snd (main_logger argv s)) = files s
  /\ (forall e, fst (main_logger argv s) = Raise e ->
        snd (main_logger argv s) = s
        /\ ((exists msg, e = ValueError msg) \/ (exists msg, e = IndexError msg)))
  /\ fst (main_logger argv s) <> OutOfFuel
  /\ (forall i logdir,
        list_index "-logpath" argv = Some i ->
        nth_error argv (i + 1) = Some logdir ->
        logdir <> EmptyString ->
        fst (main_logger argv s) = Ok tt).
Proof.
  unfold main_logger, bind, prompts_index, prompts_get, last_char.
  destruct (list_index "-logpath" argv) as [i |]; cbn [ret raise fst snd].
  - destruct (nth_error argv (i + 1)) as [logdir |] eqn:N;
      cbn [ret raise fst snd].
    + destruct (str_last logdir) as [c |] eqn:L; cbn.
      * split; [reflexivity |]. split; [reflexivity |].
        split; [discriminate |]. split; [discriminate | reflexivity].
      * split; [reflexivity |]. split; [reflexivity |]. split; [| split].
        -- intros e0 [= <-]. split; [reflexivity |]. right. now eexists.
        -- discriminate.
        -- intros i' logdir' Hi Hl H. injection Hi as <-.
           rewrite N in Hl. injection Hl as <-.
           apply str_last_nonempty in H. destruct H as [c H]. congruence.
    + split; [reflexivity |]. split; [reflexivity |]. split; [| split].
      * intros e0 [= <-]. split; [reflexivity |]. right. now eexists.
      * discriminate.
      * intros i' logdir' Hi Hl H. injection Hi as <-. congruence.
  - split; [reflexivity |]. split; [reflexivity |]. split; [| split].
    + intros e0 [= <-]. split; [reflexivity |]. left. now eexists.
    + discriminate.
    + discriminate.
Qed.

Lemma main_logger_blind pre v1 v2 post s :
  In "-logpath"%string pre \/ (v1 <> "-logpath"%string /\ v2 <> "-logpath"%string) ->
  main_logger (pre ++ "-folderpath"%string :: v1 :: post) s
  = main_logger (pre ++ "-folderpath"%string :: v2 :: post) s.
Proof.
  intros H.
  destruct (flag_lookup_blind "-logpath" "-folderpath" pre v1 v2 post)
    as [H1 H2]; [discriminate | exact H |].
  unfold main_logger, bind, prompts_index, prompts_get.
  rewrite <- H1.
  destruct (list_index "-logpath" (pre ++ "-folderpath"%string :: v1 :: post))
    as [i |]; [| reflexivity].
  cbn [ret]. now rewrite (H2 i eq_refl).
Qed.

Lemma main_folderpath_here pre v post s :
  ~ In "-folderpath"%string pre -> v <> EmptyString ->
  exists fpath,
    main_folderpath (pre ++ "-folderpath"%string :: v :: post) s = (Ok fpath, s).
Proof.
  intros Hpre Hv. unfold main_folderpath, bind, prompts_index, prompts_get,
    last_char.
  rewrite (list_index_here pre "-folderpath" (v :: post) Hpre). cbn [ret].
  rewrite nth_error_after. cbn [ret].
  destruct (str_last_nonempty v Hv) as [c ->]. cbn [ret]. now eexists.
Qed.

Lemma prefix_append a b : String.prefix a (a ++ b)%string = true.
Proof.
  induction a as [| c a IH]; cbn; [now destruct b |].
  destruct (ascii_dec c c); [exact IH | congruence].
Qed.

Lemma writes_under_refl dir s : writes_under dir s s.
Proof. exists []. now rewrite app_nil_r. Qed.

Lemma writes_under_trans dir s1 s2 s3 :
  writes_under dir s1 s2 -> writes_under dir s2 s3 -> writes_under dir s1 s3.
Proof.
  intros (n1 & H1 & F1) (n2 & H2 & F2). exists (n1 ++ n2). split.
  - now rewrite H2, H1, app_assoc.
  - now apply Forall_app.
Qed.

Lemma writes_under_same dir s s' : files s' = files s -> writes_under dir s s'.
Proof. intros H. exists []. now rewrite app_nil_r. Qed.

Lemma writes_under_scrape_all_papers w fuel fpath :
  preserves (writes_under fpath) (scrape_all_papers w fuel fpath).
Proof.
  apply preserves_scrape_all_papers.
  - apply writes_under_refl.
  - apply writes_under_trans.
  - intros lvl msg s. now apply writes_under_same.
  - intros u s. now apply writes_under_same.
  - intros u s. now apply writes_under_same.
  - intros df name s. eexists. split; [reflexivity |].
    constructor; [apply prefix_append | constructor].
Qed.

(** Whatever the command line, the output files of [main] are under the
    hardcoded folder. *)
Lemma main_writes_under w fuel argv :
  preserves (writes_under hardcoded_fpath) (main w fuel argv).
Proof.
  intros s. rewrite main_stages. revert s.
  apply preserves_bind; [apply writes_under_trans | | intros _].
  { intros s. apply writes_under_same. apply main_logger_quiet. }
  apply preserves_bind; [apply writes_under_trans | | intros _].
  { intros s. apply writes_under_same.
    unfold main_folderpath, bind, prompts_index, prompts_get, last_char.
    destruct (list_index "-folderpath" argv) as [i |]; [| reflexivity].
    cbn [ret]. destruct (nth_error argv (i + 1)) as [v |]; [| reflexivity].
    cbn [ret]. destruct (str_last v); reflexivity. }
  unfold main_run.
  apply preserves_bind;
    [apply writes_under_trans | apply writes_under_scrape_all_papers | intros _].
  intros s. now apply writes_under_same.
Qed.

(** C3, as the program has it. The value of [-folderpath] has no influence on
    the run, as long as it is not empty and is not taken for the flag
    [-logpath]: two command lines that differ in that value only give the
    same outcome and the same final state, with the same requests, log
    records and files; and the files are under the hardcoded folder. *)
Theorem folderpath_value_ignored (w : World) (fuel : nat)
  (pre post : list string) (v1 v2 : string) (s : State) :
  ~ In "-folderpath"%string pre ->
  v1 <> EmptyString -> v2 <> EmptyString ->
  In "-logpath"%string pre \/ (v1 <> "-logpath"%string /\ v2 <> "-logpath"%string) ->
  main w fuel (pre ++ "-folderpath"%string :: v1 :: post) s
  = main w fuel (pre ++ "-folderpath"%string :: v2 :: post) s
  /\ writes_under "/Users/openamiguel/Desktop/tethys/" s
       (snd (main w fuel (pre ++ "-folderpath"%string :: v1 :: post) s)).
Proof.
  intros Hpre Hv1 Hv2 Hlog. split; [| apply main_writes_under].
  rewrite !main_stages.
  rewrite !(bind_run (main_logger _)).
  rewrite (main_logger_blind pre v1 v2 post s Hlog).
  destruct (main_logger (pre ++ "-folderpath"%string :: v2 :: post) s)
    as [[[] | e |] s1]; try reflexivity.
  rewrite !(bind_run (main_folderpath _)).
  destruct (main_folderpath_here pre v1 post s1 Hpre Hv1) as [p1 ->].
  destruct (main_folderpath_here pre v2 post s1 Hpre Hv2) as [p2 ->].
  reflexivity.
Qed.

(** C3, as the specification states it, does not hold: with an empty value
    the run stops at line 213 with an [IndexError] and writes nothing, with
    another value it writes its files; and a value that reads [-logpath],
    before any other [-logpath], is taken for that flag. *)
Lemma empty_folderpath_value_stops_the_run :
  fst (main small_site 2 ["main.py"; "-logpath"; "/tmp"; "-folderpath"; EmptyString]%string
         initial_state)
  = Raise (IndexError "string index out of range")
  /\ files (snd (main small_site 2
                   ["main.py"; "-logpath"; "/tmp"; "-folderpath"; EmptyString]%string
                   initial_state)) = []
  /\ fst (main small_site 2 ["main.py"; "-logpath"; "/tmp"; "-folderpath"; "out"]%string
            initial_state)
     = Ok tt
  /\ List.length
       (files (snd (main small_site 2
                      ["main.py"; "-logpath"; "/tmp"; "-folderpath"; "out"]%string
                      initial_state))) = 51
  /\ fst (main small_site 2 ["main.py"; "-folderpath"; "-logpath"; "/tmp"]%string
            initial_state)
     = Ok tt
  /\ fst (main small_site 2 ["main.py"; "-folderpath"; "out"; "/tmp"]%string
            initial_state)
     = Raise (ValueError "'-logpath' is not in list").
Proof. repeat split; vm_compute; reflexivity. Qed.



(** ** The example sites *)

Lemma contains_unfold pat s :
  contains pat s
  = if String.prefix pat s then true
    else match s with
         | EmptyString => false
         | String _ s' => contains pat s'
         end.
Proof. destruct s; reflexivity. Qed.

Lemma contains_middle pat a b : contains pat (a ++ pat ++ b)%string = true.
Proof.
  induction a as [| c a IH]; cbn [append].
  - now rewrite contains_unfold, prefix_append.
  - rewrite contains_unfold. destruct (String.prefix pat _); [reflexivity | exact IH].
Qed.

Lemma page_url_spec_suffix tag subtag k :
  page_url_spec tag subtag (S k)
  = (("https://tethys.pnnl.gov/" ++ tag ++ "/" ++ subtag)
     ++ "?page=" ++ str_of_nat (S k))%string.
Proof. unfold page_url_spec. rewrite !append_assoc. reflexivity. Qed.

Lemma small_site_soft_tables : soft_tables small_site.
Proof.
  intros h u e. cbn.
  destruct (contains "?page=" u); [intros [= <-]; left; now eexists |].
  destruct (String.eqb u _); [discriminate |].
  intros [= <-]. left. now eexists.
Qed.

Lemma site_documents_served u : exists page, site_documents u = inr page.
Proof.
  unfold site_documents.
  repeat match goal with
         | |- context [String.eqb u ?x] => destruct (String.eqb u x)
         end; now eexists.
Qed.

Lemma small_site_soft_listing : soft_listing small_site.
Proof.
  intros h u0 u e. cbn. destruct (site_documents_served u) as [page ->].
  discriminate.
Qed.

Lemma small_site_details_served : details_served small_site.
Proof. intros h u0 u. cbn. apply site_documents_served. Qed.

Lemma small_site_pages_end : pages_end_by 1 small_site.
Proof.
  intros h tag subtag k Hk. destruct k as [| k]; [lia |].
  rewrite page_url_spec_suffix. cbn [small_site read_html].
  rewrite contains_middle. now eexists.
Qed.

(** ** The properties at work on the example sites *)



Lemma folderpath_value_ignored_witness :
  main small_site 2 ["main.py"; "-logpath"; "/tmp"; "-folderpath"; "out"]%string
    initial_state
  = main small_site 2 ["main.py"; "-logpath"; "/tmp"; "-folderpath"; "elsewhere/"]%string
      initial_state
  /\ writes_under "/Users/openamiguel/Desktop/tethys/" initial_state
       (snd (main small_site 2
               ["main.py"; "-logpath"; "/tmp"; "-folderpath"; "out"]%string
               initial_state)).
Proof.
  apply (folderpath_value_ignored small_site 2
           ["main.py"; "-logpath"; "/tmp"]%string [] "out" "elsewhere/"
           initial_state).
  - intros [H | [H | [H | []]]]; discriminate.
  - discriminate.
  - discriminate.
  - left. right. left. reflexivity.
Defined.

Lemma pagination_stops_at_first_absent_witness :
  exists pages requests,
    pagination_run two_page_site "stressor" "chemicals" 0 initial_state pages
      (snd (pagination_loop two_page_site 3 "stressor" "chemicals" 0
              (pd_DataFrame TABLE_COLUMNS) initial_state))
    /\ pd_concat (pd_concat (pd_DataFrame TABLE_COLUMNS) site_page)
         (pd_concat_axis1 (renamed empty_table)
            (Some {| sname := "paper_url"; svalues := [] |}))
       = fold_left pd_concat pages (pd_DataFrame TABLE_COLUMNS)
    /\ history (snd (pagination_loop two_page_site 3 "stressor" "chemicals" 0
                       (pd_DataFrame TABLE_COLUMNS) initial_state))
       = history initial_state ++ requests
    /\ table_requests requests
       = map (page_url_spec "stressor" "chemicals")
           (seq 0 (S (List.length pages))).
Proof.
  apply (proj1 (pagination_stops_at_first_absent two_page_site
                  "stressor" "chemicals") 3).
  vm_compute. reflexivity.
Defined.


Lemma link_resolution_precedence_witness :
  urlopen small_site (history initial_state) (detail_url paper_one_anchor)
  = inr paper_one_page
  /\ fst (resolve_link small_site paper_one_anchor initial_state)
     = Ok "http://example.org/one"%string.
Proof.
  split; [reflexivity |].
  exact (proj1 (link_resolution_precedence small_site paper_one_anchor
                  initial_state paper_one_page eq_refl)).
Defined.

Lemma link_sequence_per_anchor_witness :
  exists soup,
    urlopen small_site (history initial_state)
      (page_url_spec "stressor" "chemicals" 0) = inr soup
    /\ List.length (svalues site_links) = List.length (findAll_publications soup)
    /\ Forall2 (resolves small_site) (findAll_publications soup)
         (svalues site_links).
Proof.
  apply (link_sequence_per_anchor small_site "stressor" "chemicals" 0
           initial_state
           (snd (scrape_page_urls small_site "stressor" "chemicals" 0
                   initial_state))).
  vm_compute. reflexivity.
Defined.

Lemma rows_in_discovery_order_witness :
  exists found : list (list (list DataFrame)),
    Forall2 (fun entry => pages_found two_page_site (fst entry) (snd entry))
      TETHYS_TAG_SUBTAG found
    /\ files (snd (scrape_all_papers two_page_site 3 "/out/" initial_state))
       = files initial_state
         ++ flat_map (fun ef => tag_files "/out/" (fst ef) (snd ef))
              (combine TETHYS_TAG_SUBTAG found).
Proof.
  apply (rows_in_discovery_order two_page_site 3 "/out/" initial_state
           (snd (scrape_all_papers two_page_site 3 "/out/" initial_state)) true).
  vm_compute. reflexivity.
Defined.


(* ================================================================= *)
(** * Further properties *)

(** ** The requests and the log of the Link Extractor *)

Lemma resolve_link_exact w link s soup :
  urlopen w (history s) (detail_url link) = inr soup ->
  exists added,
    resolve_link w link s
    = (Ok (resolved_link_spec (detail_url link) soup),
       {| history := history s ++ [detail_request link];
          log := log s ++ added;
          files := files s;
          logfile := logfile s |})
    /\ map fst added = resolution_levels soup.
Proof.
  intros H. unfold resolve_link. fold (detail_url link).
  rewrite bind_logger. unfold urllib_urlopen, record_request, try_except, bind.
  cbn [logger snd history log files logfile]. rewrite H.
  cbn [lift_exn ret]. rewrite !subscript_href_soup_find.
  unfold resolved_link_spec, resolution_levels, detail_request.
  destruct (href_of_text "External Link" soup) as [h |].
  - cbn. eexists [_; _]. rewrite <- app_assoc. split; reflexivity.
  - destruct (href_of_text "Access File" soup) as [h |]; cbn.
    + eexists [_; _]. rewrite <- app_assoc. split; reflexivity.
    + eexists [_; _; _]. rewrite <- !app_assoc. split; reflexivity.
Qed.

Lemma resolve_link_raise_exact w link s e :
  urlopen w (history s) (detail_url link) = inl e ->
  exists s',
    resolve_link w link s = (Raise e, s')
    /\ history s' = history s ++ [detail_request link]
    /\ files s' = files s.
Proof.
  intros H. unfold resolve_link. fold (detail_url link).
  rewrite bind_logger. unfold urllib_urlopen, record_request, try_except, bind.
  cbn [logger snd history log files logfile]. rewrite H.
  cbn. eexists. repeat split.
Qed.

Lemma for_links_outcome w links : forall acc s r s',
  for_links w links acc s = (r, s') ->
  match r with
  | Ok _ => history s' = history s ++ map detail_request links
  | Raise e =>
      exists before link after,
        links = before ++ link :: after
        /\ urlopen w (history s ++ map detail_request before) (detail_url link)
           = inl e
        /\ history s' = history s ++ map detail_request (before ++ [link])
  | OutOfFuel => False
  end.
Proof.
  induction links as [| link links IH]; intros acc s r s'; cbn [for_links].
  - intros [= <- <-]. cbn. now rewrite app_nil_r.
  - destruct (urlopen w (history s) (detail_url link)) as [e | page] eqn:E.
    + destruct (resolve_link_raise_exact w link s e E) as (s1 & H1 & Hh & _).
      rewrite (bind_Raise_run _ _ _ _ _ H1). intros [= <- <-].
      exists [], link, links. cbn. rewrite app_nil_r. auto.
    + destruct (resolve_link_exact w link s page E) as (added & H1 & _).
      rewrite (bind_Ok_run _ _ _ _ _ H1). intros H. apply IH in H.
      cbn [history] in H. destruct r as [l | e |]; [| | exact H].
      * rewrite H, <- app_assoc. reflexivity.
      * destruct H as (before & link' & after & -> & He & Hh).
        exists (link :: before), link', after. cbn [app map].
        rewrite <- app_assoc in He, Hh. auto.
Qed.

Lemma append_empty_r (x : string) : (x ++ EmptyString)%string = x.
Proof. induction x as [| c x IH]; cbn; congruence. Qed.

Lemma detail_url_href link h :
  href link = Some h -> detail_url link = ("https://tethys.pnnl.gov" ++ h)%string.
Proof.
  intros H. unfold detail_url, get_href, TETHYS_URL_format. rewrite H.
  change (EmptyString ++ EmptyString)%string with EmptyString.
  now rewrite append_empty_r.
Qed.

Lemma scrape_page_urls_Some_requests (w : World) (tag subtag : string)
  (pagenum : nat) (s s' : State) (links : Series) :
  scrape_page_urls w tag subtag pagenum s = (Ok (Some links), s') ->
  exists soup,
    urlopen w (history s) (page_url_spec tag subtag pagenum) = inr soup
    /\ history s'
       = history s
         ++ UrlOpen (page_url_spec tag subtag pagenum)
            :: map detail_request (findAll_publications soup)
    /\ (forall a, In a (findAll_publications soup) <->
                  In a soup
                  /\ exists h, href a = Some h
                               /\ contains "/publications/" h = true
                               /\ detail_request a
                                  = UrlOpen ("https://tethys.pnnl.gov" ++ h)).
Proof.
  intros H.
  destruct (urlopen w (history s) (page_url_spec tag subtag pagenum))
    as [e | soup] eqn:E.
  - destruct (scrape_page_urls_Some _ _ _ _ _ _ _ H) as (soup & E' & _).
    congruence.
  - destruct (scrape_page_urls_listing w tag subtag pagenum s soup E)
      as (s1 & Hh1 & Hrun).
    rewrite Hrun in H. unfold bind in H.
    destruct (for_links w (findAll_publications soup) [] s1)
      as [[l | e |] s2] eqn:F; try discriminate.
    apply for_links_outcome in F. injection H as _ <-.
    exists soup. split; [reflexivity |]. split.
    + rewrite F, Hh1, <- app_assoc. reflexivity.
    + intros a. unfold findAll_publications. rewrite filter_In.
      unfold detail_request.
      destruct (href a) as [h |] eqn:Ha; split.
      * intros [Hin Hc]. split; [exact Hin |]. exists h. repeat split; auto.
        f_equal. now apply detail_url_href.
      * intros [Hin (h' & [= <-] & Hc & _)]. auto.
      * intros [_ [=]].
      * intros [_ (h' & [=] & _)].
Qed.

(** X1. When the Link Extractor returns a link sequence, its requests are the
    listing document and then the detail page of every anchor whose [href]
    contains "/publications/", in document order, each once, at the base
    URL followed by the [href] as it is; nothing else is requested. *)
Theorem link_extractor_requests (w : World) (tag subtag : string)
  (pagenum : nat) (s s' : State) (links : Series) :
  scrape_page_urls w tag subtag pagenum s = (Ok (Some links), s') ->
  exists soup,
    urlopen w (history s) (page_url_spec tag subtag pagenum) = inr soup
    /\ history s'
       = history s
         ++ UrlOpen (page_url_spec tag subtag pagenum)
            :: map detail_request (findAll_publications soup)
    /\ (forall a, In a (findAll_publications soup) <->
                  In a soup
                  /\ exists h, href a = Some h
                               /\ contains "/publications/" h = true
                               /\ detail_request a
                                  = UrlOpen ("https://tethys.pnnl.gov" ++ h)).
Proof. exact (scrape_page_urls_Some_requests w tag subtag pagenum s s' links). Qed.

Lemma scrape_page_urls_HTTPError_exact (w : World) (tag subtag : string)
  (pagenum : nat) (s : State) (msg : string) :
  urlopen w (history s) (page_url_spec tag subtag pagenum)
  = inl (HTTPError msg) ->
  exists notice,
    scrape_page_urls w tag subtag pagenum s
    = (Ok None,
       {| history := history s ++ [UrlOpen (page_url_spec tag subtag pagenum)];
          log := log s ++ [(CRITICAL, msg); (CRITICAL, notice)];
          files := files s;
          logfile := logfile s |}).
Proof.
  intros E. unfold scrape_page_urls. rewrite page_url_spec_eq.
  unfold bind at 1. unfold try_except, bind at 1.
  unfold urllib_urlopen, record_request, bind at 1.
  cbn [history log files logfile]. rewrite E. cbn.
  eexists. rewrite <- app_assoc. reflexivity.
Qed.

(** X2. When the fetch of the listing document fails with an [HTTPError],
    the Link Extractor returns no sequence after that single request: no
    detail page is asked for, no file is written, and the log gets exactly
    two records, both critical, the first with the message of the error. *)
Theorem listing_error_effects (w : World) (tag subtag : string)
  (pagenum : nat) (s : State) (msg : string) :
  urlopen w (history s) (page_url_spec tag subtag pagenum)
  = inl (HTTPError msg) ->
  exists notice,
    scrape_page_urls w tag subtag pagenum s
    = (Ok None,
       {| history := history s ++ [UrlOpen (page_url_spec tag subtag pagenum)];
          log := log s ++ [(CRITICAL, msg); (CRITICAL, notice)];
          files := files s;
          logfile := logfile s |}).
Proof. exact (scrape_page_urls_HTTPError_exact w tag subtag pagenum s msg). Qed.

Lemma scrape_page_urls_raise_exact w tag subtag pagenum s e :
  urlopen w (history s) (page_url_spec tag subtag pagenum) = inl e ->
  (forall msg, e <> HTTPError msg) ->
  exists s',
    scrape_page_urls w tag subtag pagenum s = (Raise e, s')
    /\ history s' = history s ++ [UrlOpen (page_url_spec tag subtag pagenum)].
Proof.
  intros E H. unfold scrape_page_urls. rewrite page_url_spec_eq.
  unfold bind at 1. unfold try_except, bind at 1.
  unfold urllib_urlopen, record_request, bind at 1.
  cbn [history log files logfile]. rewrite E.
  destruct e; cbn; try (eexists; split; reflexivity). now destruct (H msg).
Qed.

Lemma scrape_page_urls_raise_cases (w : World) (tag subtag : string)
  (pagenum : nat) (s s' : State) (e : exn) :
  scrape_page_urls w tag subtag pagenum s = (Raise e, s') ->
  (urlopen w (history s) (page_url_spec tag subtag pagenum) = inl e
   /\ (forall msg, e <> HTTPError msg)
   /\ history s' = history s ++ [UrlOpen (page_url_spec tag subtag pagenum)])
  \/ (exists soup before link after,
        urlopen w (history s) (page_url_spec tag subtag pagenum) = inr soup
        /\ findAll_publications soup = before ++ link :: after
        /\ urlopen w
             (history s ++ UrlOpen (page_url_spec tag subtag pagenum)
                           :: map detail_request before)
             (detail_url link)
           = inl e
        /\ history s'
           = history s ++ UrlOpen (page_url_spec tag subtag pagenum)
                          :: map detail_request (before ++ [link])).
Proof.
  intros H.
  destruct (urlopen w (history s) (page_url_spec tag subtag pagenum))
    as [e0 | soup] eqn:E.
  - left.
    assert ((exists msg, e0 = HTTPError msg) \/ forall msg, e0 <> HTTPError msg)
      as [[msg ->] | Hne].
    { destruct e0; try (right; intros msg'; discriminate). left. now eexists. }
    + destruct (scrape_page_urls_HTTPError w tag subtag pagenum s msg E)
        as (s1 & Hn & _).
      rewrite Hn in H. discriminate.
    + destruct (scrape_page_urls_raise_exact w tag subtag pagenum s e0 E Hne)
        as (s1 & H1 & Hh). rewrite H1 in H. injection H as <- <-. auto.
  - right.
    destruct (scrape_page_urls_listing w tag subtag pagenum s soup E)
      as (s1 & Hh1 & Hrun).
    rewrite Hrun in H. unfold bind in H.
    destruct (for_links w (findAll_publications soup) [] s1)
      as [[l | e1 |] s2] eqn:F; try discriminate.
    apply for_links_outcome in F. injection H as <- <-.
    destruct F as (before & link & after & Hsplit & He & Hh).
    exists soup, before, link, after. rewrite Hh1, <- app_assoc in He, Hh.
    auto.
Qed.

(** X3. An exception leaves the Link Extractor in two ways only: the fetch of
    the listing document raised it and it is not an [HTTPError]; or the
    fetch of the detail page of some anchor raised it, after the detail
    pages of the anchors before it were fetched, and then no later anchor
    is asked for.  The links resolved so far are not returned. *)
Theorem link_extractor_failure (w : World) (tag subtag : string)
  (pagenum : nat) (s s' : State) (e : exn) :
  scrape_page_urls w tag subtag pagenum s = (Raise e, s') ->
  (urlopen w (history s) (page_url_spec tag subtag pagenum) = inl e
   /\ (forall msg, e <> HTTPError msg)
   /\ history s' = history s ++ [UrlOpen (page_url_spec tag subtag pagenum)])
  \/ (exists soup before link after,
        urlopen w (history s) (page_url_spec tag subtag pagenum) = inr soup
        /\ findAll_publications soup = before ++ link :: after
        /\ urlopen w
             (history s ++ UrlOpen (page_url_spec tag subtag pagenum)
                           :: map detail_request before)
             (detail_url link)
           = inl e
        /\ history s'
           = history s ++ UrlOpen (page_url_spec tag subtag pagenum)
                          :: map detail_request (before ++ [link])).
Proof. apply scrape_page_urls_raise_cases. Qed.

(** X4. Once the detail page of an anchor is fetched, the log tells how its
    link was resolved: a debug record for the request, then one debug
    record when an "External Link" or an "Access File" anchor was found, or
    two warnings when the detail page itself is the link; the files are
    left as they are and the detail page is the only request. *)
Theorem link_resolution_log (w : World) (link : Anchor) (s : State)
  (soup : Html) :
  urlopen w (history s) (detail_url link) = inr soup ->
  exists added,
    log (snd (resolve_link w link s)) = log s ++ added
    /\ map fst added
       = match href_of_text "External Link" soup,
               href_of_text "Access File" soup with
         | None, None => [DEBUG; WARNING; WARNING]
         | _, _ => [DEBUG; DEBUG]
         end
    /\ history (snd (resolve_link w link s))
       = history s ++ [UrlOpen (detail_url link)]
    /\ files (snd (resolve_link w link s)) = files s.
Proof.
  intros H. destruct (resolve_link_exact w link s soup H) as (added & -> & L).
  exists added. cbn. repeat split. exact L.
Qed.

(** ** The effects of the Page Extractor *)

Ltac run_read_html E :=
  unfold scrape_page; rewrite page_url_spec_eq;
  unfold bind at 1; unfold try_except at 1; unfold bind at 1;
  unfold pd_read_html; unfold bind at 1; unfold record_request at 1;
  cbn [history log files logfile]; rewrite E; cbn [lift_exn ret raise].

Lemma scrape_page_ValueError_exact w tag subtag pagenum s msg :
  read_html w (history s) (page_url_spec tag subtag pagenum)
  = inl (ValueError msg) ->
  scrape_page w tag subtag pagenum s
  = (Ok None,
     {| history := history s ++ [ReadHtml (page_url_spec tag subtag pagenum)];
        log := log s
               ++ (ERROR, msg)
                  :: (if contains "No tables found" msg
                      then [(ERROR,
                             ("URL " ++ page_url_spec tag subtag pagenum
                              ++ " does not have a table of papers")%string)]
                      else []);
        files := files s;
        logfile := logfile s |}).
Proof.
  intros E. run_read_html E. unfold bind at 1. unfold bind at 1.
  cbn [logger]. unfold bind at 1.
  destruct (contains "No tables found" msg); cbn.
  - now rewrite <- app_assoc.
  - reflexivity.
Qed.

Lemma scrape_page_absent_exact w tag subtag pagenum s :
  absent_answer (read_html w (history s) (page_url_spec tag subtag pagenum)) ->
  exists added,
    scrape_page w tag subtag pagenum s
    = (Ok None,
       {| history := history s ++ [ReadHtml (page_url_spec tag subtag pagenum)];
          log := log s ++ added;
          files := files s;
          logfile := logfile s |})
    /\ exists msg, In (ERROR, msg) added.
Proof.
  destruct (read_html w (history s) (page_url_spec tag subtag pagenum))
    as [e | [t ts]] eqn:E; cbn [absent_answer].
  - destruct e; try contradiction; intros _.
    + run_read_html E. cbn. eexists [_; _]. rewrite <- app_assoc.
      split; [reflexivity |]. eexists. now left.
    + rewrite (scrape_page_ValueError_exact _ _ _ _ _ _ E).
      eexists. split; [reflexivity |]. eexists. now left.
  - intros L. run_read_html E.
    unfold bind at 1. unfold bind at 1. unfold try_except at 1. unfold bind at 1.
    unfold set_columns. apply Nat.eqb_neq in L. rewrite L. cbn [raise].
    destruct ts as [| t' ts]; cbn.
    + eexists [_; _]. rewrite <- app_assoc. split; [reflexivity |].
      eexists. now left.
    + eexists [_; _; _]. rewrite <- !app_assoc. split; [reflexivity |].
      eexists. right. now left.
Qed.

Lemma scrape_page_None_answer w tag subtag pagenum s :
  fst (scrape_page w tag subtag pagenum s) = Ok None ->
  absent_answer (read_html w (history s) (page_url_spec tag subtag pagenum)).
Proof.
  intros H. unfold absent_answer.
  destruct (read_html w (history s) (page_url_spec tag subtag pagenum))
    as [e | [t ts]] eqn:E.
  - destruct e; auto;
      (destruct (scrape_page_other_error w tag subtag pagenum s _ E)
         as (s' & H' & _); [discriminate | discriminate |];
       rewrite H' in H; discriminate).
  - intros L.
    destruct (scrape_page_table w tag subtag pagenum s t ts E L) as (s1 & H' & _).
    rewrite H' in H. now apply merge_links_not_None in H.
Qed.

(** X5. An absent page costs the table request and nothing else: the listing
    document and the detail pages are not asked for and no file is written;
    and every absent page, the one that ends a pagination included, puts at
    least one error record in the log. *)
Theorem absent_page_effects (w : World) (tag subtag : string)
  (pagenum : nat) (s s' : State) :
  scrape_page w tag subtag pagenum s = (Ok None, s') ->
  history s' = history s ++ [ReadHtml (page_url_spec tag subtag pagenum)]
  /\ files s' = files s
  /\ logfile s' = logfile s
  /\ exists added msg, log s' = log s ++ added /\ In (ERROR, msg) added.
Proof.
  intros H.
  assert (fst (scrape_page w tag subtag pagenum s) = Ok None) as H0
      by now rewrite H.
  apply scrape_page_None_answer in H0.
  destruct (scrape_page_absent_exact w tag subtag pagenum s H0)
    as (added & Hrun & msg & Hin).
  rewrite Hrun in H. injection H as <-. cbn. repeat split; auto.
  now exists added, msg.
Qed.

(** X6. When [read_html] raises a [ValueError], the page is absent and the
    log gets the message of the error, followed by the line that says that
    the URL has no table of papers exactly when the message contains
    "No tables found". *)
Theorem value_error_log (w : World) (tag subtag : string) (pagenum : nat)
  (s : State) (msg : string) :
  read_html w (history s) (page_url_spec tag subtag pagenum)
  = inl (ValueError msg) ->
  fst (scrape_page w tag subtag pagenum s) = Ok None
  /\ log (snd (scrape_page w tag subtag pagenum s))
     = log s
       ++ (ERROR, msg)
          :: (if contains "No tables found" msg
              then [(ERROR,
                     ("URL " ++ page_url_spec tag subtag pagenum
                      ++ " does not have a table of papers")%string)]
              else []).
Proof.
  intros E. rewrite (scrape_page_ValueError_exact _ _ _ _ _ _ E). now split.
Qed.

(** ** The merge of the table and the links *)

Lemma zip_rows_length width rs : forall vs,
  List.length (zip_rows width rs vs) = Nat.max (List.length rs) (List.length vs).
Proof.
  induction rs as [| r rs IH]; intros vs; cbn [zip_rows].
  - now rewrite length_map.
  - destruct vs as [| v vs]; cbn [List.length]; rewrite IH; cbn; lia.
Qed.

Lemma zip_rows_aligned width rs : forall vs,
  List.length rs = List.length vs ->
  zip_rows width rs vs = map (fun rv => fst rv ++ [Some (snd rv)]) (combine rs vs).
Proof.
  induction rs as [| r rs IH]; intros vs H; destruct vs as [| v vs];
    try discriminate; cbn; [reflexivity |].
  f_equal. apply IH. now injection H.
Qed.

Lemma zip_rows_surplus_links width rs : forall vs i,
  List.length rs <= i ->
  nth_error (zip_rows width rs vs) i
  = option_map (fun v => repeat None width ++ [Some v]) (nth_error vs i).
Proof.
  induction rs as [| r rs IH]; intros vs i H; cbn [zip_rows].
  - apply nth_error_map.
  - destruct i as [| i]; [cbn in H; lia |].
    destruct vs as [| v vs]; cbn [nth_error].
    + rewrite IH by (cbn in H; lia). now destruct i.
    + apply IH. cbn in H. lia.
Qed.


(** ** Exceptions come from the network *)

Lemma raises_only_bind {A B} (P : exn -> Prop) (m : M A) (f : A -> M B) :
  raises_only P m -> (forall a, raises_only P (f a)) -> raises_only P (bind m f).
Proof.
  intros Hm Hf s e. unfold bind. specialize (Hm s).
  destruct (m s) as [[a | e' |] s1]; cbn in *.
  - apply Hf.
  - intros [= <-]. now apply Hm.
  - discriminate.
Qed.

Lemma completes_raises_only {A} (P : exn -> Prop) (m : M A) :
  completes m -> raises_only P m.
Proof. intros H s e He. destruct (H s) as [a Ha]. congruence. Qed.

Lemma scrape_page_urls_raises_network w tag subtag pagenum :
  raises_only (network_exn w) (scrape_page_urls w tag subtag pagenum).
Proof.
  intros s e H.
  destruct (scrape_page_urls w tag subtag pagenum s) as [r s'] eqn:R.
  cbn in H. subst r. apply scrape_page_urls_raise_cases in R.
  destruct R as [(E & _) | (soup & before & link & after & _ & _ & E & _)];
    do 2 eexists; right; exact E.
Qed.

Lemma scrape_page_raises_network w tag subtag pagenum :
  raises_only (network_exn w) (scrape_page w tag subtag pagenum).
Proof.
  intros s e H.
  destruct (read_html w (history s) (page_url_spec tag subtag pagenum))
    as [e0 | [t ts]] eqn:E.
  - assert (absent_answer (inl e0) \/ ((forall msg, e0 <> HTTPError msg)
                                       /\ forall msg, e0 <> ValueError msg))
      as [Ha | [H1 H2]].
    { destruct e0; cbn; auto; right; split; intros msg'; discriminate. }
    + rewrite <- E in Ha.
      destruct (scrape_page_absent_exact w tag subtag pagenum s Ha)
        as (added & Hrun & _). rewrite Hrun in H. discriminate.
    + destruct (scrape_page_other_error w tag subtag pagenum s e0 E H1 H2)
        as (s' & Hrun & _). rewrite Hrun in H. injection H as <-.
      do 2 eexists. left. exact E.
  - destruct (Nat.eq_dec (List.length (columns t)) (List.length TABLE_COLUMNS))
      as [L | L].
    + destruct (scrape_page_table w tag subtag pagenum s t ts E L)
        as (s1 & Hrun & _). rewrite Hrun in H. revert H.
      unfold merge_links. apply raises_only_bind.
      * apply scrape_page_urls_raises_network.
      * intros urls. apply completes_raises_only.
        apply completes_bind; [apply completes_logger | intros _].
        apply completes_ret.
    + destruct (scrape_page_mismatch w tag subtag pagenum s t ts E L)
        as (s' & Hrun & _). rewrite Hrun in H. discriminate.
Qed.

Lemma pagination_loop_raises_network w fuel tag subtag : forall pagenum df,
  raises_only (network_exn w) (pagination_loop w fuel tag subtag pagenum df).
Proof.
  induction fuel as [| fuel IH]; intros pagenum df; cbn [pagination_loop].
  - intros s e. discriminate.
  - apply raises_only_bind;
      [apply completes_raises_only, completes_logger | intros _].
    apply raises_only_bind; [apply scrape_page_raises_network |].
    intros [page_df |].
    + apply raises_only_bind;
        [apply completes_raises_only, completes_logger | intros _].
      apply raises_only_bind;
        [apply completes_raises_only, completes_logger | intros _].
      apply IH.
    + apply completes_raises_only.
      apply completes_bind; [apply completes_logger | intros _].
      apply completes_ret.
Qed.


(** ** The requests of a run *)

Lemma scrape_subtag_requests w fuel fpath tag tag_df subtag s tag_df' s' :
  scrape_subtag w fuel fpath tag tag_df subtag s = (Ok tag_df', s') ->
  exists pages s0 s1 requests,
    pagination_run w tag subtag 0 s0 pages s1
    /\ history s' = history s ++ requests
    /\ table_requests requests = subtag_table_requests tag (subtag, pages).
Proof.
  unfold scrape_subtag. rewrite bind_logger. unfold bind at 1.
  match goal with
  | |- context [pagination_loop w fuel tag subtag 0 ?df ?st] =>
      destruct (pagination_loop w fuel tag subtag 0 df st)
        as [[df' | e |] s1] eqn:E
  end; try discriminate.
  apply pagination_loop_sound in E. destruct E as (pages & Hrun & -> & _).
  destruct (pagination_run_requests _ _ _ _ _ _ _ Hrun) as (requests & Hh & Ht).
  cbn. intros [= <- <-]. cbn.
  exists pages. do 2 eexists. exists requests. split; [exact Hrun |].
  split; [exact Hh | exact Ht].
Qed.

Lemma for_subtags_requests w fuel fpath tag subtags : forall tag_df s tag_df' s',
  for_subtags w fuel fpath tag subtags tag_df s = (Ok tag_df', s') ->
  exists found requests,
    pages_found w tag subtags found
    /\ history s' = history s ++ requests
    /\ table_requests requests
       = flat_map (subtag_table_requests tag) (combine subtags found).
Proof.
  induction subtags as [| subtag subtags IH]; intros tag_df s tag_df' s'.
  - cbn. intros [= <- <-]. exists [], []. rewrite app_nil_r.
    repeat split. constructor.
  - cbn [for_subtags]. unfold bind at 1.
    destruct (scrape_subtag w fuel fpath tag tag_df subtag s)
      as [[df1 | e |] s1] eqn:E; try discriminate.
    apply scrape_subtag_requests in E.
    destruct E as (pages & s0 & s2 & r1 & Hrun & Hh1 & Ht1).
    intros H. apply IH in H. destruct H as (found & r2 & Hfound & Hh2 & Ht2).
    exists (pages :: found), (r1 ++ r2). split; [| split].
    + constructor; [now exists s0, s2 | exact Hfound].
    + rewrite Hh2, Hh1, <- app_assoc. reflexivity.
    + rewrite table_requests_app, Ht1, Ht2. reflexivity.
Qed.

Lemma scrape_tag_requests w fuel fpath entry s s' :
  scrape_tag w fuel fpath entry s = (Ok tt, s') ->
  exists found requests,
    pages_found w (fst entry) (snd entry) found
    /\ history s' = history s ++ requests
    /\ table_requests requests = tag_table_requests entry found.
Proof.
  destruct entry as [tag subtags]. unfold scrape_tag.
  rewrite bind_logger. unfold bind at 1.
  match goal with
  | |- context [for_subtags w fuel fpath tag subtags ?df ?st] =>
      destruct (for_subtags w fuel fpath tag subtags df st)
        as [[df' | e |] s1] eqn:E
  end; try discriminate.
  apply for_subtags_requests in E.
  destruct E as (found & requests & Hfound & Hh & Ht).
  cbn. intros [= <-]. cbn. now exists found, requests.
Qed.

Lemma for_tags_requests w fuel fpath taxonomy : forall s s',
  for_tags w fuel fpath taxonomy s = (Ok tt, s') ->
  exists found requests,
    Forall2 (fun entry => pages_found w (fst entry) (snd entry)) taxonomy found
    /\ history s' = history s ++ requests
    /\ table_requests requests
       = flat_map (fun ef => tag_table_requests (fst ef) (snd ef))
           (combine taxonomy found).
Proof.
  induction taxonomy as [| entry taxonomy IH]; intros s s'.
  - cbn. intros [= <-]. exists [], []. rewrite app_nil_r.
    repeat split. constructor.
  - cbn [for_tags]. unfold bind at 1.
    destruct (scrape_tag w fuel fpath entry s) as [[[] | e |] s1] eqn:E;
      try discriminate.
    apply scrape_tag_requests in E.
    destruct E as (found1 & r1 & Hfound1 & Hh1 & Ht1).
    intros H. apply IH in H. destruct H as (found & r2 & Hfound & Hh2 & Ht2).
    exists (found1 :: found), (r1 ++ r2). split; [| split].
    + now constructor.
    + rewrite Hh2, Hh1, <- app_assoc. reflexivity.
    + rewrite table_requests_app, Ht1, Ht2. reflexivity.
Qed.

(** X9. A run that completes has asked for tables tag after tag and subtag
    after subtag, in the order of the taxonomy and whatever the earlier
    subtags gave: for every subtag, the pages from index 0 to the first
    absent one, in increasing order, each once.  A subtag without pages
    costs one table request. *)
Theorem run_table_requests (w : World) (fuel : nat) (fpath : string)
  (s s' : State) (b : bool) :
  scrape_all_papers w fuel fpath s = (Ok b, s') ->
  exists (found : list (list (list DataFrame))) requests,
    Forall2 (fun entry => pages_found w (fst entry) (snd entry))
      TETHYS_TAG_SUBTAG found
    /\ history s' = history s ++ requests
    /\ table_requests requests
       = flat_map
           (fun ef =>
              flat_map
                (fun sp =>
                   map (page_url_spec (fst (fst ef)) (fst sp))
                       (seq 0 (S (List.length (snd sp)))))
                (combine (snd (fst ef)) (snd ef)))
           (combine TETHYS_TAG_SUBTAG found).
Proof.
  unfold scrape_all_papers, bind.
  destruct (for_tags w fuel fpath TETHYS_TAG_SUBTAG s) as [[[] | e |] s1] eqn:E;
    try discriminate.
  intros [= _ <-]. now apply (for_tags_requests w fuel fpath).
Qed.

(** ** The files of a run *)

Lemma completed_run_files w fuel fpath s s' b :
  scrape_all_papers w fuel fpath s = (Ok b, s') ->
  exists found : list (list (list DataFrame)),
    Forall2 (fun entry => pages_found w (fst entry) (snd entry))
      TETHYS_TAG_SUBTAG found
    /\ files s' = files s ++ flat_map (fun ef => tag_files fpath (fst ef) (snd ef))
                                      (combine TETHYS_TAG_SUBTAG found).
Proof.
  unfold scrape_all_papers, bind.
  destruct (for_tags w fuel fpath TETHYS_TAG_SUBTAG s) as [[[] | e |] s1] eqn:E;
    try discriminate.
  intros [= _ <-]. now apply (for_tags_run w fuel).
Qed.

Lemma map_combine_fst {A B C} (P : A -> B -> Prop) (f : A -> C) l1 l2 :
  Forall2 P l1 l2 -> map (fun ab => f (fst ab)) (combine l1 l2) = map f l1.
Proof. induction 1; cbn; congruence. Qed.

Lemma tag_files_paths w fpath entry found :
  pages_found w (fst entry) (snd entry) found ->
  map path (tag_files fpath entry found) = output_paths fpath [entry].
Proof.
  intros H. unfold tag_files, output_paths. cbn [flat_map].
  rewrite app_nil_r, map_app, map_map. cbn [map path tag_file subtag_file].
  f_equal.
  apply (map_combine_fst _
           (fun subtag => (fpath ++ fst entry ++ "-" ++ subtag ++ ".csv")%string)
           _ _ H).
Qed.

Lemma laid_out_width cols frame :
  Forall (fun r => List.length r = List.length cols) (laid_out cols frame).
Proof.
  unfold laid_out. apply Forall_forall. intros r Hr.
  apply in_map_iff in Hr. destruct Hr as (r0 & <- & _).
  unfold reindex. apply length_map.
Qed.

Lemma flat_map_Forall {A B} (P : B -> Prop) (f : A -> list B) l :
  (forall x, In x l -> Forall P (f x)) -> Forall P (flat_map f l).
Proof.
  induction l as [| x l IH]; intros H; cbn; [constructor |].
  apply Forall_app. split; [apply H; now left |].
  apply IH. intros y Hy. apply H. now right.
Qed.

Lemma tag_files_well_formed fpath entry found :
  Forall (fun f => sep f = DELIM
                   /\ Forall (fun r => List.length r = List.length (header f))
                        (body f))
         (tag_files fpath entry found).
Proof.
  unfold tag_files. apply Forall_app. split.
  - apply Forall_forall. intros f Hf. apply in_map_iff in Hf.
    destruct Hf as (sp & <- & _). cbn. split; [reflexivity |].
    apply flat_map_Forall. intros p _. apply laid_out_width.
  - constructor; [| constructor]. cbn. split; [reflexivity |].
    apply flat_map_Forall. intros pages _.
    apply flat_map_Forall. intros p _. apply laid_out_width.
Qed.

(** X10. Where and what a run writes does not depend on the site: a run that
    completes has written, for every tag in the order of the taxonomy, one
    file [fpath ++ tag ++ "-" ++ subtag ++ ".csv"] per subtag, also for the
    subtags without pages, and then the file [fpath ++ tag ++ ".csv"]; 51
    files in all, each with a tab as separator, and nothing joins [fpath]
    and the name of the file. *)
Theorem run_output_paths (w : World) (fuel : nat) (fpath : string)
  (s s' : State) (b : bool) :
  scrape_all_papers w fuel fpath s = (Ok b, s') ->
  exists new,
    files s' = files s ++ new
    /\ map path new
       = flat_map (fun entry =>
                     map (fun subtag =>
                            (fpath ++ fst entry ++ "-" ++ subtag ++ ".csv")%string)
                         (snd entry)
                     ++ [(fpath ++ fst entry ++ ".csv")%string])
                  TETHYS_TAG_SUBTAG
    /\ List.length new = 51
    /\ Forall (fun f => sep f = String (ascii_of_nat 9) EmptyString) new.
Proof.
  intros H. apply completed_run_files in H.
  destruct H as (found & Hfound & Hfiles).
  eexists. split; [exact Hfiles |].
  assert (map path (flat_map (fun ef => tag_files fpath (fst ef) (snd ef))
                      (combine TETHYS_TAG_SUBTAG found))
          = output_paths fpath TETHYS_TAG_SUBTAG) as Hpaths.
  { clear Hfiles. induction Hfound as [| entry fs taxonomy found' H1 _ IH].
    - reflexivity.
    - cbn [combine flat_map fst snd]. rewrite map_app, IH.
      rewrite (tag_files_paths w fpath entry fs H1).
      unfold output_paths. cbn [flat_map]. now rewrite app_nil_r. }
  split; [exact Hpaths |]. split.
  - rewrite <- (length_map path), Hpaths. reflexivity.
  - apply flat_map_Forall. intros ef _.
    eapply Forall_impl; [| apply tag_files_well_formed]. cbn. tauto.
Qed.

(** X11. In every file of a run that completes, every data row has exactly
    as many cells as the header row has names, whatever the pages merged,
    with a link column or without: every file is a rectangular table. *)
Theorem run_files_rectangular (w : World) (fuel : nat) (fpath : string)
  (s s' : State) (b : bool) :
  scrape_all_papers w fuel fpath s = (Ok b, s') ->
  exists new,
    files s' = files s ++ new
    /\ Forall (fun f =>
                 Forall (fun r => List.length r = List.length (header f))
                        (body f))
              new.
Proof.
  intros H. apply completed_run_files in H.
  destruct H as (found & _ & Hfiles).
  eexists. split; [exact Hfiles |].
  apply flat_map_Forall. intros ef _.
  eapply Forall_impl; [| apply tag_files_well_formed]. cbn. tauto.
Qed.

(** ** Runs that do not complete *)

Lemma same_files_pagination_loop w fuel tag subtag pagenum df :
  preserves same_files (pagination_loop w fuel tag subtag pagenum df).
Proof.
  apply preserves_pagination_loop; unfold same_files, preserves; intros; cbn;
    congruence.
Qed.

Lemma scrape_subtag_outcome w fuel fpath tag tag_df subtag s r s' :
  scrape_subtag w fuel fpath tag tag_df subtag s = (r, s') ->
  match r with
  | Ok _ => True
  | _ => files s' = files s
  end.
Proof.
  unfold scrape_subtag. rewrite bind_logger. unfold bind at 1.
  match goal with
  | |- context [pagination_loop w fuel tag subtag 0 ?df ?st] =>
      pose proof (same_files_pagination_loop w fuel tag subtag 0 df st) as Hf;
      destruct (pagination_loop w fuel tag subtag 0 df st) as [[df' | e |] s1]
  end; cbn in Hf |- *; intros [= <- <-]; auto.
Qed.

Lemma for_subtags_outcome w fuel fpath tag subtags : forall tag_df s r s',
  for_subtags w fuel fpath tag subtags tag_df s = (r, s') ->
  match r with
  | Ok _ => True
  | _ =>
      exists found,
        List.length found < List.length subtags
        /\ pages_found w tag (firstn (List.length found) subtags) found
        /\ files s' = files s ++ map (subtag_file fpath tag)
                                   (combine subtags found)
  end.
Proof.
  induction subtags as [| subtag subtags IH]; intros tag_df s r s'.
  - cbn. now intros [= <- <-].
  - cbn [for_subtags]. unfold bind at 1.
    destruct (scrape_subtag w fuel fpath tag tag_df subtag s)
      as [[df1 | e |] s1] eqn:E.
    + apply scrape_subtag_run in E.
      destruct E as (pages & s0 & s2 & Hrun & Hfiles & _).
      intros H. apply IH in H. destruct r as [df' | e |]; [exact I | |];
        destruct H as (found & Hlen & Hfound & Hfiles');
        exists (pages :: found); cbn [List.length firstn combine map];
        (split; [lia |]); (split; [constructor; [now exists s0, s2 | exact Hfound] |]);
        rewrite Hfiles', Hfiles, <- app_assoc; reflexivity.
    + apply scrape_subtag_outcome in E. intros [= <- <-].
      exists []. cbn. rewrite app_nil_r. repeat split; [lia | constructor | exact E].
    + apply scrape_subtag_outcome in E. intros [= <- <-].
      exists []. cbn. rewrite app_nil_r. repeat split; [lia | constructor | exact E].
Qed.

(** X12. A tag whose scraping does not complete leaves the files of the
    subtags that were completed before the failure, in order, and nothing
    else: the subtag that fails has no file, however many of its pages were
    read, and the file of the tag is not written. *)
Theorem failed_tag_files (w : World) (fuel : nat) (fpath tag : string)
  (subtags : list string) (s s' : State) (e : exn) :
  scrape_tag w fuel fpath (tag, subtags) s = (Raise e, s') ->
  exists found,
    List.length found < List.length subtags
    /\ pages_found w tag (firstn (List.length found) subtags) found
    /\ files s' = files s ++ map (subtag_file fpath tag) (combine subtags found).
Proof.
  unfold scrape_tag. rewrite bind_logger. unfold bind at 1.
  match goal with
  | |- context [for_subtags w fuel fpath tag subtags ?df ?st] =>
      destruct (for_subtags w fuel fpath tag subtags df st)
        as [[df' | e' |] s1] eqn:E
  end; try discriminate.
  apply for_subtags_outcome in E. intros [= _ <-]. exact E.
Qed.

(** ** A subtag without pages *)


(** ** The log file and the outcome of [main] *)

Lemma str_drop_last_last v c :
  str_last v = Some c -> (str_drop_last v ++ String c EmptyString)%string = v.
Proof.
  induction v as [| a v IH]; [discriminate |].
  destruct v as [| b v]; cbn [str_last str_drop_last append].
  - now intros [= <-].
  - intros H. f_equal. now apply IH.
Qed.

Lemma logfile_of_eq v c :
  str_last v = Some c ->
  ((if Ascii.eqb c "/" then str_drop_last v else v) ++ "/tethys.log")%string
  = logfile_of v.
Proof.
  intros H. unfold logfile_of, ends_with_slash. rewrite H.
  destruct (Ascii.eqb c "/") eqn:E; [| reflexivity].
  apply Ascii.eqb_eq in E. subst c.
  rewrite <- (str_drop_last_last v _ H) at 2.
  now rewrite append_assoc.
Qed.

Lemma main_logger_ready argv s i logdir :
  list_index "-logpath" argv = Some i ->
  nth_error argv (i + 1) = Some logdir ->
  logdir <> EmptyString ->
  main_logger argv s = (Ok tt, logger_ready logdir s).
Proof.
  intros Hi Hl Hne. destruct (str_last_nonempty logdir Hne) as [c Hc].
  unfold main_logger, bind, prompts_index, prompts_get, last_char.
  rewrite Hi. cbn [ret]. rewrite Hl. cbn [ret]. rewrite Hc.
  cbn. unfold logger_ready. now rewrite (logfile_of_eq logdir c Hc).
Qed.

Lemma main_folderpath_quiet argv s :
  snd (main_folderpath argv s) = s.
Proof.
  unfold main_folderpath, bind, prompts_index, prompts_get, last_char.
  destruct (list_index "-folderpath" argv) as [i |]; [| reflexivity].
  cbn [ret]. destruct (nth_error argv (i + 1)) as [v |]; [| reflexivity].
  cbn [ret]. destruct (str_last v); reflexivity.
Qed.

Lemma same_logfile_main_run w fuel : preserves same_logfile (main_run w fuel).
Proof.
  unfold main_run. apply preserves_bind.
  - unfold same_logfile. congruence.
  - apply preserves_scrape_all_papers; unfold same_logfile, preserves; intros;
      cbn; congruence.
  - intros _ s. reflexivity.
Qed.



(** ** What a page costs *)

Lemma scrape_page_urls_None w tag subtag pagenum s s' :
  scrape_page_urls w tag subtag pagenum s = (Ok None, s') ->
  exists msg,
    urlopen w (history s) (page_url_spec tag subtag pagenum) = inl (HTTPError msg)
    /\ history s' = history s ++ [UrlOpen (page_url_spec tag subtag pagenum)].
Proof.
  intros H.
  destruct (urlopen w (history s) (page_url_spec tag subtag pagenum))
    as [e0 | soup] eqn:E.
  - assert ((exists msg, e0 = HTTPError msg) \/ forall msg, e0 <> HTTPError msg)
      as [[msg ->] | Hne].
    { destruct e0; try (right; intros msg'; discriminate). left. now eexists. }
    + destruct (scrape_page_urls_HTTPError_exact w tag subtag pagenum s msg E)
        as [n Hn].
      rewrite Hn in H. injection H as <-. now exists msg.
    + destruct (scrape_page_urls_raise_exact w tag subtag pagenum s e0 E Hne)
        as (s1 & H1 & _). rewrite H1 in H. discriminate.
  - destruct (scrape_page_urls_listing w tag subtag pagenum s soup E)
      as (s1 & _ & Hrun).
    rewrite Hrun in H. unfold bind in H.
    destruct (for_links w (findAll_publications soup) [] s1)
      as [[l | e1 |] s2]; discriminate.
Qed.


(** ** The header of a subtag file *)

Lemma pagination_run_schema w tag subtag pagenum s pages s' :
  pagination_run w tag subtag pagenum s pages s' ->
  Forall (fun page_df => schema_header (columns page_df)) pages.
Proof.
  induction 1 as [pagenum s s1 E | pagenum s page_df s1 pages s' E Hrun IH].
  - constructor.
  - constructor; [| exact IH].
    apply (scrape_page_schema w tag subtag pagenum (page_started pagenum s)).
    now rewrite E.
Qed.

Lemma fold_concat_header pages : forall a,
  schema_header (columns a) ->
  Forall (fun page_df => schema_header (columns page_df)) pages ->
  columns (fold_left pd_concat pages a)
  = TABLE_COLUMNS ++ (if has_links a || existsb has_links pages
                      then ["paper_url"%string] else []).
Proof.
  induction pages as [| p pages IH]; intros a Ha Hp; cbn [fold_left existsb].
  - rewrite orb_false_r. unfold has_links.
    destruct Ha as [-> | ->]; reflexivity.
  - inversion Hp as [| p' pages' Hp1 Hp2]; subst.
    rewrite IH; [| now apply schema_header_concat | exact Hp2].
    do 2 f_equal. rewrite orb_assoc. f_equal.
    unfold has_links. cbn [pd_concat columns].
    destruct Ha as [-> | ->], Hp1 as [-> | ->]; reflexivity.
Qed.

(** X17. The header of the file of a subtag tells whether links were found:
    it ends with [paper_url] exactly when one page at least of the subtag
    came with a link column; a subtag without pages, or whose listing
    documents could not be fetched, gets the 7 names of the table only. *)
Theorem subtag_file_header (w : World) (fuel : nat) (fpath tag : string)
  (tag_df : DataFrame) (subtag : string) (s s' : State)
  (tag_df' : DataFrame) :
  scrape_subtag w fuel fpath tag tag_df subtag s = (Ok tag_df', s') ->
  exists pages s0 s1 file,
    pagination_run w tag subtag 0 s0 pages s1
    /\ files s' = files s ++ [file]
    /\ path file = (fpath ++ tag ++ "-" ++ subtag ++ ".csv")%string
    /\ header file
       = TABLE_COLUMNS
         ++ (if existsb (fun page_df => mem_string "paper_url" (columns page_df))
                        pages
             then ["paper_url"%string] else []).
Proof.
  intros H. apply scrape_subtag_run in H.
  destruct H as (pages & s0 & s1 & Hrun & Hfiles & _).
  exists pages, s0, s1, (subtag_file fpath tag (subtag, pages)).
  split; [exact Hrun |]. split; [exact Hfiles |]. split; [reflexivity |].
  cbn [subtag_file header snd]. unfold stack.
  rewrite fold_concat_header.
  - reflexivity.
  - now left.
  - eapply pagination_run_schema; eauto.
Qed.

(** ** The further properties at work on the example sites *)

Lemma link_extractor_requests_witness :
  exists soup,
    urlopen small_site (history initial_state)
      (page_url_spec "stressor" "chemicals" 0) = inr soup
    /\ history (snd (scrape_page_urls small_site "stressor" "chemicals" 0
                       initial_state))
       = history initial_state
         ++ UrlOpen (page_url_spec "stressor" "chemicals" 0)
            :: map detail_request (findAll_publications soup)
    /\ (forall a, In a (findAll_publications soup) <->
                  In a soup
                  /\ exists h, href a = Some h
                               /\ contains "/publications/" h = true
                               /\ detail_request a
                                  = UrlOpen ("https://tethys.pnnl.gov" ++ h)).
Proof.
  apply (link_extractor_requests small_site "stressor" "chemicals" 0
           initial_state _ site_links).
  vm_compute. reflexivity.
Defined.

Lemma listing_error_effects_witness :
  exists notice,
    scrape_page_urls broken_listing_site "stressor" "chemicals" 0 initial_state
    = (Ok None,
       {| history := history initial_state
                     ++ [UrlOpen (page_url_spec "stressor" "chemicals" 0)];
          log := log initial_state
                 ++ [(CRITICAL, "HTTP Error 404: Not Found"%string);
                     (CRITICAL, notice)];
          files := files initial_state;
          logfile := logfile initial_state |}).
Proof.
  apply (listing_error_effects broken_listing_site "stressor" "chemicals" 0
           initial_state "HTTP Error 404: Not Found").
  reflexivity.
Defined.

Lemma link_extractor_failure_witness :
  history (snd (scrape_page_urls broken_detail_site "stressor" "chemicals" 0
                  initial_state))
  = [UrlOpen "https://tethys.pnnl.gov/stressor/chemicals"%string;
     UrlOpen "https://tethys.pnnl.gov/publications/paper-one"%string;
     UrlOpen "https://tethys.pnnl.gov/publications/paper-two"%string].
Proof.
  destruct (link_extractor_failure broken_detail_site "stressor" "chemicals" 0
              initial_state
              (snd (scrape_page_urls broken_detail_site "stressor" "chemicals" 0
                      initial_state))
              not_found)
    as [(E & _) | (soup & before & link & after & E & _)].
  - vm_compute. reflexivity.
  - discriminate E.
  - vm_compute. reflexivity.
Defined.

Lemma link_resolution_log_witness :
  exists added,
    log (snd (resolve_link small_site paper_one_anchor initial_state))
    = log initial_state ++ added
    /\ map fst added = [DEBUG; DEBUG]
    /\ history (snd (resolve_link small_site paper_one_anchor initial_state))
       = history initial_state ++ [UrlOpen (detail_url paper_one_anchor)]
    /\ files (snd (resolve_link small_site paper_one_anchor initial_state))
       = files initial_state.
Proof.
  exact (link_resolution_log small_site paper_one_anchor initial_state
           paper_one_page eq_refl).
Defined.

Lemma absent_page_effects_witness :
  history (snd (scrape_page small_site "stressor" "emf" 0 initial_state))
  = [ReadHtml "https://tethys.pnnl.gov/stressor/emf"%string]
  /\ files (snd (scrape_page small_site "stressor" "emf" 0 initial_state)) = [].
Proof.
  destruct (absent_page_effects small_site "stressor" "emf" 0 initial_state
              (snd (scrape_page small_site "stressor" "emf" 0 initial_state)))
    as (Hh & Hf & _).
  - vm_compute. reflexivity.
  - split; [exact Hh | exact Hf].
Defined.

Lemma value_error_log_witness :
  fst (scrape_page tableless_site "stressor" "emf" 0 initial_state) = Ok None
  /\ log (snd (scrape_page tableless_site "stressor" "emf" 0 initial_state))
     = [(ERROR, "No tables found"%string);
        (ERROR,
         "URL https://tethys.pnnl.gov/stressor/emf does not have a table of papers"%string)].
Proof.
  exact (value_error_log tableless_site "stressor" "emf" 0 initial_state
           "No tables found" eq_refl).
Defined.



Lemma run_table_requests_witness :
  exists (found : list (list (list DataFrame))) requests,
    Forall2 (fun entry => pages_found two_page_site (fst entry) (snd entry))
      TETHYS_TAG_SUBTAG found
    /\ history (snd (scrape_all_papers two_page_site 3 "/out/" initial_state))
       = history initial_state ++ requests
    /\ table_requests requests
       = flat_map
           (fun ef =>
              flat_map
                (fun sp =>
                   map (page_url_spec (fst (fst ef)) (fst sp))
                       (seq 0 (S (List.length (snd sp)))))
                (combine (snd (fst ef)) (snd ef)))
           (combine TETHYS_TAG_SUBTAG found).
Proof.
  apply (run_table_requests two_page_site 3 "/out/" initial_state _ true).
  vm_compute. reflexivity.
Defined.

Lemma run_output_paths_witness :
  exists new,
    files (snd (scrape_all_papers two_page_site 3 "/out/" initial_state))
    = files initial_state ++ new
    /\ map path new
       = flat_map (fun entry =>
                     map (fun subtag =>
                            ("/out/" ++ fst entry ++ "-" ++ subtag ++ ".csv")%string)
                         (snd entry)
                     ++ [("/out/" ++ fst entry ++ ".csv")%string])
                  TETHYS_TAG_SUBTAG
    /\ List.length new = 51
    /\ Forall (fun f => sep f = String (ascii_of_nat 9) EmptyString) new.
Proof.
  apply (run_output_paths two_page_site 3 "/out/" initial_state _ true).
  vm_compute. reflexivity.
Defined.

Lemma run_files_rectangular_witness :
  exists new,
    files (snd (scrape_all_papers two_page_site 3 "/out/" initial_state))
    = files initial_state ++ new
    /\ Forall (fun f =>
                 Forall (fun r => List.length r = List.length (header f))
                        (body f))
              new.
Proof.
  apply (run_files_rectangular two_page_site 3 "/out/" initial_state _ true).
  vm_compute. reflexivity.
Defined.

Lemma failed_tag_files_witness :
  exists found,
    List.length found < 3
    /\ pages_found broken_detail_site "stressor"
         (firstn (List.length found) ["emf"; "chemicals"; "noise"]%string) found
    /\ files (snd (scrape_tag broken_detail_site 2 "/out/"
                     ("stressor"%string, ["emf"; "chemicals"; "noise"]%string)
                     initial_state))
       = files initial_state
         ++ map (subtag_file "/out/" "stressor")
              (combine ["emf"; "chemicals"; "noise"]%string found).
Proof.
  apply (failed_tag_files broken_detail_site 2 "/out/" "stressor"
           ["emf"; "chemicals"; "noise"]%string initial_state _ not_found).
  vm_compute. reflexivity.
Defined.





Lemma subtag_file_header_witness :
  exists pages s0 s1 file,
    pagination_run small_site "stressor" "chemicals" 0 s0 pages s1
    /\ files (snd (scrape_subtag small_site 2 "/out/" "stressor"
                     (pd_DataFrame TABLE_COLUMNS) "chemicals" initial_state))
       = files initial_state ++ [file]
    /\ path file = ("/out/" ++ "stressor" ++ "-" ++ "chemicals" ++ ".csv")%string
    /\ header file
       = TABLE_COLUMNS
         ++ (if existsb (fun page_df => mem_string "paper_url" (columns page_df))
                        pages
             then ["paper_url"%string] else []).
Proof.
  apply (subtag_file_header small_site 2 "/out/" "stressor"
           (pd_DataFrame TABLE_COLUMNS) "chemicals" initial_state _
           (pd_concat (pd_DataFrame TABLE_COLUMNS)
              (pd_concat (pd_DataFrame TABLE_COLUMNS) site_page))).
  vm_compute. reflexivity.
Defined.
